(** * Conical: client-side multivariate testing

    A shallow embedding of [src/conical.js] (class [Conical]) and the
    properties of its segmentation logic.

    Modelling conventions.
    - A Number is an IEEE 754 binary64 value, as [SpecFloat] specifies
      them.  The weights, sample sizes and draws the library is given are
      finite and are carried by their exact rational value ([Q]); user
      identities are integers ([Z]).  The running sum of the weighted draw
      and the product of the eligibility test are computed on Numbers,
      rounded to nearest, ties to even; the identity generated from a draw
      is computed exactly.  [NaN] is [None] where the code can observe it
      ([parseInt], truthiness of the user id).
    - Strings are byte strings ([string]); a character outside ASCII is
      its UTF-8 bytes.
    - [window.localStorage] is a finite map from string keys to string
      values, absent ([None]) when the property is undefined.
    - [new Date()] reads the field [now] of the world, in milliseconds.
    - [this.options.random] is the sequence [random] of the values its
      successive calls return; [draws] counts the calls made so far.
    - A user callback is a named transformer of the world that may throw;
      every invocation is recorded in the trace of the run.  Callbacks do
      not mutate the experiment object itself.
    - An exception does not roll the world back: a run always returns the
      world it reached. *)

From Stdlib Require Import ZArith QArith Qround Qminmax Lqa String Ascii List Lia.
From Stdlib Require Import DecimalString DecimalZ SpecFloat.
From stdpp Require Import gmap strings.

(** ** JavaScript values passed by callers *)

Inductive value : Type :=
  | VUndefined
  | VNull
  | VBoolean (b : bool)
  | VNumber (q : Q)
  | VString (s : string)
  | VObject
  | VFunction.

Definition typeof (v : value) : string :=
  match v with
  | VUndefined => "undefined"
  | VNull => "object"
  | VBoolean _ => "boolean"
  | VNumber _ => "number"
  | VString _ => "string"
  | VObject => "object"
  | VFunction => "function"
  end.

(** [v === s] for a string literal [s]. *)
Definition strict_eq_string (v : value) (s : string) : bool :=
  match v with
  | VString t => String.eqb t s
  | _ => false
  end.

(** ** Exceptions *)

Inductive exn : Type :=
  | Error (message : string)       (* throw new Error(message) *)
  | TypeError (message : string)   (* raised by the language itself *)
  | OutOfModel (what : string).    (* behaviour the embedding does not cover *)

(** ** Characters *)

Definition dquote : ascii := "034"%char.
Definition backslash : ascii := "092"%char.

Definition code (c : ascii) : N := N_of_ascii c.

(** ** Number to string, and [parseInt] *)

(** [String(n)] for an integer [n] (decimal digits; valid for
    [|n| < 10^21], beyond which JavaScript switches to exponents). *)
Definition Number_toString (n : Z) : string :=
  DecimalString.NilZero.string_of_int (Z.to_int n).

(** [String(v)] for the result of [getItem]: a string or [null]. *)
Definition ToString (v : option string) : string :=
  match v with
  | Some s => s
  | None => "null"
  end.

Definition is_white_space (c : ascii) : bool :=
  let n := code c in
  ((9 <=? n) && (n <=? 13) || (n =? 32))%N.

Fixpoint trim_start (s : string) : string :=
  match s with
  | String c r => if is_white_space c then trim_start r else s
  | EmptyString => EmptyString
  end.

Definition decimal_digit (c : ascii) : option (Decimal.uint -> Decimal.uint) :=
  match code c with
  | 48%N => Some Decimal.D0 | 49%N => Some Decimal.D1
  | 50%N => Some Decimal.D2 | 51%N => Some Decimal.D3
  | 52%N => Some Decimal.D4 | 53%N => Some Decimal.D5
  | 54%N => Some Decimal.D6 | 55%N => Some Decimal.D7
  | 56%N => Some Decimal.D8 | 57%N => Some Decimal.D9
  | _ => None
  end.

Definition hexadecimal_digit (c : ascii)
  : option (Hexadecimal.uint -> Hexadecimal.uint) :=
  match code c with
  | 48%N => Some Hexadecimal.D0 | 49%N => Some Hexadecimal.D1
  | 50%N => Some Hexadecimal.D2 | 51%N => Some Hexadecimal.D3
  | 52%N => Some Hexadecimal.D4 | 53%N => Some Hexadecimal.D5
  | 54%N => Some Hexadecimal.D6 | 55%N => Some Hexadecimal.D7
  | 56%N => Some Hexadecimal.D8 | 57%N => Some Hexadecimal.D9
  | 65%N | 97%N => Some Hexadecimal.Da
  | 66%N | 98%N => Some Hexadecimal.Db
  | 67%N | 99%N => Some Hexadecimal.Dc
  | 68%N | 100%N => Some Hexadecimal.Dd
  | 69%N | 101%N => Some Hexadecimal.De
  | 70%N | 102%N => Some Hexadecimal.Df
  | _ => None
  end.

(** The longest prefix of digits, as a numeral. *)
Fixpoint decimal_prefix (s : string) : Decimal.uint :=
  match s with
  | String c r =>
      match decimal_digit c with
      | Some d => d (decimal_prefix r)
      | None => Decimal.Nil
      end
  | EmptyString => Decimal.Nil
  end.

Fixpoint hexadecimal_prefix (s : string) : Hexadecimal.uint :=
  match s with
  | String c r =>
      match hexadecimal_digit c with
      | Some d => d (hexadecimal_prefix r)
      | None => Hexadecimal.Nil
      end
  | EmptyString => Hexadecimal.Nil
  end.

Definition strip_sign (s : string) : bool * string :=
  match s with
  | String c r =>
      if (code c =? 45)%N then (true, r)
      else if (code c =? 43)%N then (false, r)
      else (false, s)
  | EmptyString => (false, s)
  end.

Definition is_hex_prefix (s : string) : option string :=
  match s with
  | String c0 (String c1 r) =>
      if ((code c0 =? 48) && ((code c1 =? 120) || (code c1 =? 88)))%N
      then Some r else None
  | _ => None
  end.

Definition signed (negative : bool) (n : Z) : Z :=
  if negative then (- n)%Z else n.

(** [parseInt(s)] with no radix argument; [None] is [NaN]. *)
Definition parseInt (s : string) : option Z :=
  let '(negative, body) := strip_sign (trim_start s) in
  match is_hex_prefix body with
  | Some r =>
      match hexadecimal_prefix r with
      | Hexadecimal.Nil => None
      | h => Some (signed negative (Z.of_hex_uint h))
      end
  | None =>
      match decimal_prefix body with
      | Decimal.Nil => None
      | d => Some (signed negative (Z.of_uint d))
      end
  end.

(** [!!n] for a number. *)
Definition truthy_number (n : option Z) : bool :=
  match n with
  | Some z => negb (z =? 0)%Z
  | None => false
  end.

(** [!!s] for a string or [null]. *)
Definition truthy_string (v : option string) : bool :=
  match v with
  | Some s => negb (String.eqb s EmptyString)
  | None => false
  end.

(** ** JSON, on the objects the library stores *)

(** The object [{ id: ... }] written by [setVariant]. *)
Record StoredVariant : Type := { sv_id : string }.

Definition hex_char (n : N) : ascii :=
  if (n <? 10)%N then ascii_of_N (48 + n) else ascii_of_N (87 + n).

(** One character of [QuoteJSONString] (ECMA-262, 25.5.2.3). *)
Definition escape (c : ascii) : string :=
  let n := code c in
  if (n =? 34)%N then String backslash (String dquote EmptyString)
  else if (n =? 92)%N then String backslash (String backslash EmptyString)
  else if (n =? 8)%N then String backslash "b"
  else if (n =? 12)%N then String backslash "f"
  else if (n =? 10)%N then String backslash "n"
  else if (n =? 13)%N then String backslash "r"
  else if (n =? 9)%N then String backslash "t"
  else if (n <? 32)%N then
    String backslash
      (String "u" (String "0" (String "0"
        (String (hex_char (n / 16)) (String (hex_char (n mod 16)) EmptyString)))))
  else String c EmptyString.

Fixpoint escape_all (s : string) : string :=
  match s with
  | String c r => escape c +:+ escape_all r
  | EmptyString => EmptyString
  end.

Definition QuoteJSONString (s : string) : string :=
  String dquote (escape_all s +:+ String dquote EmptyString).

(** [JSON.stringify({ id: o.id })]. *)
Definition JSON_stringify (o : StoredVariant) : string :=
  "{" +:+ QuoteJSONString "id" +:+ ":" +:+ QuoteJSONString (sv_id o) +:+ "}".

Definition hex_value (c : ascii) : option N :=
  let n := code c in
  if ((48 <=? n) && (n <=? 57))%N then Some (n - 48)%N
  else if ((97 <=? n) && (n <=? 102))%N then Some (n - 87)%N
  else if ((65 <=? n) && (n <=? 70))%N then Some (n - 55)%N
  else None.

Definition simple_escape (c : ascii) : option ascii :=
  match code c with
  | 34%N => Some dquote
  | 92%N => Some backslash
  | 47%N => Some "/"%char
  | 98%N => Some (ascii_of_N 8)
  | 102%N => Some (ascii_of_N 12)
  | 110%N => Some (ascii_of_N 10)
  | 114%N => Some (ascii_of_N 13)
  | 116%N => Some (ascii_of_N 9)
  | _ => None
  end.

(** A [\uXXXX] escape, for code points below 128. *)
Definition unicode_escape (h1 h2 h3 h4 : ascii) : option ascii :=
  match hex_value h1, hex_value h2, hex_value h3, hex_value h4 with
  | Some a, Some b, Some c, Some d =>
      let n := (((a * 16 + b) * 16 + c) * 16 + d)%N in
      if (n <? 128)%N then Some (ascii_of_N n) else None
  | _, _, _, _ => None
  end.

(** Reads a JSON string literal after its opening quote: the characters
    it denotes and the text after its closing quote. *)
Fixpoint read_string (s : string) : option (string * string) :=
  match s with
  | EmptyString => None
  | String c r =>
      if (code c =? 34)%N then Some (EmptyString, r)
      else if (code c =? 92)%N then
        match r with
        | String e r1 =>
            if (code e =? 117)%N then
              match r1 with
              | String h1 (String h2 (String h3 (String h4 r2))) =>
                  match unicode_escape h1 h2 h3 h4, read_string r2 with
                  | Some a, Some (t, rest) => Some (String a t, rest)
                  | _, _ => None
                  end
              | _ => None
              end
            else
              match simple_escape e, read_string r1 with
              | Some a, Some (t, rest) => Some (String a t, rest)
              | _, _ => None
              end
        | EmptyString => None
        end
      else if (code c <? 32)%N then None
      else
        match read_string r with
        | Some (t, rest) => Some (String c t, rest)
        | None => None
        end
  end.

(** Strips a literal prefix. *)
Fixpoint expect (p s : string) : option string :=
  match p, s with
  | EmptyString, _ => Some s
  | String a p1, String b s1 => if Ascii.eqb a b then expect p1 s1 else None
  | String _ _, EmptyString => None
  end.

(** [JSON.parse(text)] on the texts [JSON_stringify] produces: an object
    with the single member [id] holding a string, without white space.
    Other texts (on which JavaScript returns another value or throws a
    [SyntaxError]) are outside the embedding. *)
Definition JSON_parse (text : string) : exn + StoredVariant :=
  match expect ("{" +:+ QuoteJSONString "id" +:+ ":" +:+ String dquote EmptyString) text with
  | Some r =>
      match read_string r with
      | Some (s, String c EmptyString) =>
          if (code c =? 125)%N then inr {| sv_id := s |}
          else inl (OutOfModel "JSON.parse")
      | _ => inl (OutOfModel "JSON.parse")
      end
  | None => inl (OutOfModel "JSON.parse")
  end.

(** ** The world, and runs of the library in it *)

Record World : Type := {
  localStorage : option (gmap string string);
  now : Z;
  random : nat -> Q;
  draws : nat
}.

Definition with_storage (m : option (gmap string string)) (w : World) : World :=
  {| localStorage := m; now := now w; random := random w; draws := draws w |}.

(** An invocation of a user callback, as recorded in the trace. *)
Inductive call : Type :=
  | HandlerCall (name : string) (variant : option StoredVariant)
  | ActionCall (name : string) (args : list value).

(** A run returns a value or throws, reaches a world, and leaves a trace. *)
Definition M (A : Type) : Type := World -> (exn + A) * World * list call.

Definition ret {A : Type} (a : A) : M A := fun w => (inr a, w, []).

Definition throw {A : Type} (e : exn) : M A := fun w => (inl e, w, []).

Definition bind {A B : Type} (m : M A) (k : A -> M B) : M B := fun w =>
  match m w with
  | (inl e, w1, t1) => (inl e, w1, t1)
  | (inr a, w1, t1) =>
      match k a w1 with
      | (r, w2, t2) => (r, w2, t1 ++ t2)
      end
  end.

Notation "'let*' x ':=' m 'in' k" := (bind m (fun x => k))
  (at level 10, x name, m at level 100, k at level 200, only parsing).

(** [for (let x of xs) body(x)]. *)
Fixpoint for_of {A : Type} (xs : list A) (body : A -> M unit) : M unit :=
  match xs with
  | [] => ret tt
  | x :: rest => let* _ := body x in for_of rest body
  end.

(** ** User callbacks *)

Record callback (A : Type) : Type := {
  cb_name : string;
  cb_body : A -> World -> option exn * World
}.
Arguments cb_name {A} _.
Arguments cb_body {A} _ _ _.

(** An event handler receives the stored variant (or [undefined]). *)
Definition Handler : Type := callback (option StoredVariant).

(** A variant's callback receives the arguments of [start], as one array. *)
Definition Action : Type := callback (list value).

(** [cb.call(this, arg)]; [None] is a callback that is not a function. *)
Definition invoke {A : Type} (record : string -> A -> call)
    (cb : option (callback A)) (arg : A) : M unit :=
  match cb with
  | None => throw (TypeError "callback.call is not a function")
  | Some f => fun w =>
      match cb_body f arg w with
      | (Some e, w1) => (inl e, w1, [record (cb_name f) arg])
      | (None, w1) => (inr tt, w1, [record (cb_name f) arg])
      end
  end.

(** ** Numbers *)

(** IEEE 754 binary64: 53 bits of precision, exponents below 1024. *)
Definition Number : Type := spec_float.

Definition prec : Z := 53.
Definition emax : Z := 1024.

(** The Number of an integer: the integer itself up to [2^53], the
    nearest Number beyond. *)
Definition Number_of_Z (n : Z) : Number := binary_normalize prec emax n 0 false.

(** The Number of a rational: the Number with that value when there is
    one, and otherwise (as for 1/10) the nearest, ties to even.  The
    quotient is taken with at least 55 bits and rounded with the position
    of the remainder. *)
Definition Number_of_Q (q : Q) : Number :=
  let q := Qred q in
  let d := Zpos (Qden q) in
  match Qnum q with
  | Z0 => S754_zero false
  | n =>
      let a := Z.abs n in
      let k := Z.max 0 (Z.log2 d + 55 - Z.log2 a) in
      let (m, r) := Z.div_eucl (a * 2 ^ k) d in
      binary_round_aux prec emax (n <? 0)%Z m (- k)
        (if (r =? 0)%Z then loc_Exact else loc_Inexact (2 * r ?= d)%Z)
  end.

(** [x + y], [x * y], [x < y] and [x >= y] on Numbers. *)
Definition Number_add : Number -> Number -> Number := SFadd prec emax.
Definition Number_mul : Number -> Number -> Number := SFmul prec emax.
Definition Number_lt : Number -> Number -> bool := SFltb.
Definition Number_ge (x y : Number) : bool := SFleb y x.

(** ** The experiment object *)

Record Options : Type := {
  sampleSize : Q;
  expiry : option Z
}.

(** The [options] argument of the constructor; [None] is a missing key. *)
Record OptionsArg : Type := {
  arg_sampleSize : option Q;
  arg_expiry : option Z
}.

Record VariantOptions : Type := { weight : Q }.

Record Variant : Type := {
  v_id : string;
  v_options : VariantOptions;
  v_callback : option Action
}.

Record Experiment : Type := {
  id : string;
  description : value;
  options : Options;
  uidKey : string;
  storagePrefix : string;
  experimentKey : string;
  min : Z;
  max : Z;
  hasConverted : bool;
  variants : list Variant;
  handlers : gmap string (list (option Handler))
}.

(** The second argument of [addVariant]. *)
Inductive VariantArg : Type :=
  | ArgObject (weight : option Q)
  | ArgFunction (f : Action)
  | ArgUndefined
  | ArgNull.

(** An object with an [id]: a registered variant or a sentinel. *)
Inductive Chosen : Type :=
  | Registered (variant : Variant)
  | Sentinel (id : string).

Definition chosen_id (c : Chosen) : string :=
  match c with
  | Registered variant => v_id variant
  | Sentinel i => i
  end.

Definition Qltb (x y : Q) : bool := negb (Qle_bool y x).

(** [!!q]: a Number is falsy when it is a zero or [NaN]. *)
Definition truthy_Q (q : Q) : bool :=
  match Number_of_Q q with
  | S754_zero _ | S754_nan => false
  | _ => true
  end.

(** *** Storage *)

Definition container : M unit := fun w =>
  match localStorage w with
  | Some _ => (inr tt, w, [])
  | None => (inl (Error "localStorage is unavailable in this environment"), w, [])
  end.

Definition getItem (key : string) : M (option string) := fun w =>
  (inr (match localStorage w with Some m => m !! key | None => None end), w, []).

Definition setItem (key v : string) : M unit := fun w =>
  (inr tt, with_storage (insert key v <$> localStorage w) w, []).

Definition removeItem (key : string) : M unit := fun w =>
  (inr tt, with_storage (delete key <$> localStorage w) w, []).

(** [this.options.random()]. *)
Definition draw : M Q := fun w =>
  (inr (random w (draws w)),
   {| localStorage := localStorage w; now := now w;
      random := random w; draws := S (draws w) |}, []).

Definition setId (this : Experiment) (n : Z) : M unit :=
  let* _ := container in
  setItem (uidKey this) (Number_toString n).

Definition getId (this : Experiment) : M (option Z) :=
  let* _ := container in
  let* v := getItem (uidKey this) in
  ret (parseInt (ToString v)).

Definition setVariant (this : Experiment) (variant : Chosen) : M unit :=
  let* _ := container in
  setItem (experimentKey this) (JSON_stringify {| sv_id := chosen_id variant |}).

Definition getVariant (this : Experiment) : M (option StoredVariant) :=
  let* _ := container in
  let* variant := getItem (experimentKey this) in
  if truthy_string variant then
    match JSON_parse (ToString variant) with
    | inr o => ret (Some o)
    | inl e => throw e
    end
  else ret None.

Definition clearVariant (this : Experiment) : M unit :=
  let* _ := container in
  removeItem (experimentKey this).

(** *** Identity *)

Definition hasId (this : Experiment) : M bool :=
  let* n := getId this in
  ret (truthy_number n).

Definition assignId (this : Experiment) : M (option Z) :=
  let generateRandomId (min max : Z) : M (option Z) :=
    let* r := draw in
    let n := Qfloor (r * inject_Z max + inject_Z min) in
    let* _ := setId this n in
    ret (Some n) in
  let* has := hasId this in
  if has then getId this else generateRandomId (min this) (max this).

(** *** Construction and registration *)

Definition invalid_name (v : value) : bool :=
  strict_eq_string v "undefined" || negb (String.eqb (typeof v) "string").

Definition Conical (id description : value) (supplied : OptionsArg) : M Experiment :=
  match id with
  | VString s =>
      if invalid_name id then throw (Error "experiment id is required")
      else
        let this :=
          {| id := s;
             description := description;
             options :=
               {| sampleSize := default 1%Q (arg_sampleSize supplied);
                  expiry := arg_expiry supplied |};
             uidKey := "conical_uid";
             storagePrefix := "experiment_";
             experimentKey := "experiment_" +:+ s;
             min := 0;
             max := 100000;
             hasConverted := false;
             variants := [];
             handlers := ∅ |} in
        let* _ := assignId this in
        ret this
  | _ => throw (Error "experiment id is required")
  end.

Definition push_variant (variant : Variant) (this : Experiment) : Experiment :=
  {| id := id this; description := description this; options := options this;
     uidKey := uidKey this; storagePrefix := storagePrefix this;
     experimentKey := experimentKey this; min := min this; max := max this;
     hasConverted := hasConverted this;
     variants := variants this ++ [variant];
     handlers := handlers this |}.

Definition addVariant (id : value) (options : VariantArg) (cb : option Action)
    (this : Experiment) : exn + Experiment :=
  match id with
  | VString s =>
      if invalid_name id then inl (Error "variant id is required")
      else
        let '(cb, options) :=
          match options with
          | ArgFunction f => (Some f, ArgObject None)
          | ArgUndefined => (None, ArgObject None)
          | _ => (cb, options)
          end in
        match options with
        | ArgObject w =>
            let weight :=
              match w with
              | Some q => if truthy_Q q then q else 0.5%Q
              | None => 0.5%Q
              end in
            inr (push_variant
                   {| v_id := s; v_options := {| weight := weight |};
                      v_callback := cb |} this)
        | _ => inl (TypeError "cannot read property weight of null")
        end
  | _ => inl (Error "variant id is required")
  end.

(** [this.handlers] is an Array used as a dictionary from event names to
    lists of callbacks: the map holds the lists registered.  Under a name
    that has no list, [this.handlers[event]] is not [undefined] when the
    name is that of a property every Array has: the number [length], or a
    method inherited from [Array.prototype] or [Object.prototype]
    (ECMAScript 2023, with Annex B). *)
Definition Array_property_names : list string :=
  [ "length"; "constructor";
    "at"; "concat"; "copyWithin"; "entries"; "every"; "fill"; "filter";
    "find"; "findIndex"; "findLast"; "findLastIndex"; "flat"; "flatMap";
    "forEach"; "includes"; "indexOf"; "join"; "keys"; "lastIndexOf"; "map";
    "pop"; "push"; "reduce"; "reduceRight"; "reverse"; "shift"; "slice";
    "some"; "sort"; "splice"; "toLocaleString"; "toReversed"; "toSorted";
    "toSpliced"; "toString"; "unshift"; "values"; "with";
    "hasOwnProperty"; "isPrototypeOf"; "propertyIsEnumerable"; "valueOf";
    "__defineGetter__"; "__defineSetter__"; "__lookupGetter__";
    "__lookupSetter__" ].

Definition Array_property (name : string) : bool :=
  existsb (String.eqb name) Array_property_names.

(** What [this.handlers[event] = this.handlers[event] || []] leaves
    under the name: a list, registered earlier or new, to which [push]
    adds the callback.  Under [length] it leaves a number (the length 0,
    if [[]] was assigned), and under the name of a method the method:
    neither has a [push], and the call throws.  Under [__proto__] it is
    [Array.prototype] itself, to which the callback would be pushed. *)
Definition registrable (handlers : gmap string (list (option Handler)))
    (name : string) : exn + unit :=
  match handlers !! name with
  | Some _ => inr tt
  | None =>
      if String.eqb name "__proto__" then inl (OutOfModel "Array.prototype")
      else if Array_property name
      then inl (TypeError "this.handlers[event].push is not a function")
      else inr tt
  end.

Definition on (event : value) (cb : option Handler) (this : Experiment)
  : exn + Experiment :=
  match event with
  | VString s =>
      if invalid_name event then inl (Error "handler event name is required")
      else
        match registrable (handlers this) s with
        | inl e => inl e
        | inr _ =>
            inr {| id := id this; description := description this;
                   options := options this; uidKey := uidKey this;
                   storagePrefix := storagePrefix this;
                   experimentKey := experimentKey this;
                   min := min this; max := max this;
                   hasConverted := hasConverted this;
                   variants := variants this;
                   handlers :=
                     <[s := default [] (handlers this !! s) ++ [cb]]>
                       (handlers this) |}
        end
  | _ => inl (Error "handler event name is required")
  end.

(** *** Events *)

(** The library triggers [start] and [complete] only: under these names
    [this.handlers[event]] is the list registered, or [undefined]. *)
Definition trigger (this : Experiment) (event : string)
    (variant : option StoredVariant) : M unit :=
  let callbacks := default [] (handlers this !! event) in
  for_of callbacks (fun callback => invoke HandlerCall callback variant).

(** *** Segmentation *)

Definition hasExpired (this : Experiment) : M bool := fun w =>
  (inr (match expiry (options this) with
        | Some t => (now w >? t)%Z
        | None => false
        end), w, []).

Definition isParticipating (this : Experiment) : M bool :=
  let* variant := getVariant this in
  ret (match variant with Some _ => true | None => false end).

Definition canParticipate (this : Experiment) : M bool :=
  let sampleSize := Qmin (Qmax (sampleSize (options this)) 0) 1 in
  let* uid := getId this in
  ret (match uid with
       | Some n =>
           Number_lt (Number_of_Z n)
             (Number_mul (Number_of_Z (max this)) (Number_of_Q sampleSize))
       | None => false
       end).

(** The loop of [allocateVariant]: [cumerlativeWeight] is a Number, to
    which [+=] adds the weight of each variant in turn. *)
Fixpoint allocate_loop (vs : list Variant)
    (cumerlativeWeight randomVariant : Number) : Chosen :=
  match vs with
  | [] => Sentinel "no-chosen-variant"
  | variant :: rest =>
      let cumerlativeWeight :=
        Number_add cumerlativeWeight (Number_of_Q (weight (v_options variant))) in
      if Number_ge cumerlativeWeight randomVariant then Registered variant
      else allocate_loop rest cumerlativeWeight randomVariant
  end.

(** The loop, from a given cumulative weight and for a given draw. *)
Definition allocate_from (vs : list Variant) (cumerlativeWeight randomVariant : Q)
  : Chosen :=
  allocate_loop vs (Number_of_Q cumerlativeWeight) (Number_of_Q randomVariant).

Definition allocateVariant (this : Experiment) : M Chosen :=
  let* randomVariant := draw in
  ret (allocate_from (variants this) 0 randomVariant).

Definition participating (this : Experiment) : M unit :=
  let* allocatedVariant := allocateVariant this in
  setVariant this allocatedVariant.

Definition notParticipating (this : Experiment) : M unit :=
  setVariant this (Sentinel "not-participating").

Definition segment (this : Experiment) : M unit :=
  let* expired := hasExpired this in
  if expired then
    let* _ := clearVariant this in
    throw (Error "this experiment has expired")
  else if (length (variants this) <=? 0)%nat then
    throw (Error "this experiment has no variants")
  else
    let* already := isParticipating this in
    if already then ret tt
    else
      let* can := canParticipate this in
      if can then participating this else notParticipating this.

(** *** Running and completing *)

(** [chosenVariant.id], which throws when [chosenVariant] is [undefined]. *)
Definition get_id (chosenVariant : option StoredVariant) : M string :=
  match chosenVariant with
  | Some o => ret (sv_id o)
  | None => throw (TypeError "cannot read property id of undefined")
  end.

Definition start (args : list value) (this : Experiment) : M unit :=
  let* chosenVariant := getVariant this in
  for_of (variants this) (fun variant =>
    let* chosen := get_id chosenVariant in
    if String.eqb (v_id variant) chosen then
      let* _ := trigger this "start" chosenVariant in
      invoke ActionCall (v_callback variant) args
    else ret tt).

Definition converted (this : Experiment) : Experiment :=
  {| id := id this; description := description this; options := options this;
     uidKey := uidKey this; storagePrefix := storagePrefix this;
     experimentKey := experimentKey this; min := min this; max := max this;
     hasConverted := true;
     variants := variants this;
     handlers := handlers this |}.

(** [complete] mutates [this] before it triggers the handlers, so the
    object it leaves is returned beside the run, whatever its outcome. *)
Definition complete (this : Experiment) (w : World)
  : Experiment * ((exn + unit) * World * list call) :=
  if hasConverted this then
    (this, throw (Error "this experiment is already complete") w)
  else
    match getVariant this w with
    | (inl e, w1, t1) => (this, (inl e, w1, t1))
    | (inr chosenVariant, w1, t1) =>
        let this := converted this in
        match trigger this "complete" chosenVariant w1 with
        | (r, w2, t2) => (this, (r, w2, t1 ++ t2))
        end
    end.

(** ** Notions used to state the properties *)

(** The world after one call of the randomness source. *)
Definition drawn (w : World) : World :=
  {| localStorage := localStorage w; now := now w;
     random := random w; draws := S (draws w) |}.

(** The weight accumulated after the variant at index [k], starting from
    [acc]: the sum, left to right, of the weights of the variants at
    indices [0..k], each addition being that of Numbers. *)
Definition weight_through (acc : Number) (vs : list Variant) (k : nat) : Number :=
  fold_left (fun a v => Number_add a (Number_of_Q (weight (v_options v))))
    (take (S k) vs) acc.

(** What the draw [r] selects among [vs]: the first variant, in
    registration order, whose cumulative weight reaches [r], and the
    sentinel when no cumulative weight does. *)
Definition selected_from (acc : Number) (vs : list Variant) (r : Number)
    (c : Chosen) : Prop :=
  (exists k v,
      vs !! k = Some v /\
      Number_ge (weight_through acc vs k) r = true /\
      (forall j, (j < k)%nat -> Number_ge (weight_through acc vs j) r = false) /\
      c = Registered v)
  \/ ((forall k, (k < length vs)%nat ->
          Number_ge (weight_through acc vs k) r = false) /\
      c = Sentinel "no-chosen-variant").

Definition selected (vs : list Variant) (r : Q) (c : Chosen) : Prop :=
  selected_from (Number_of_Q 0) vs (Number_of_Q r) c.

(** The mantissa of the Number of a positive integer below [2^53]: the
    integer, shifted left to 53 bits. *)
Definition aligned (p : positive) : positive :=
  match (53 - Zpos (digits2_pos p))%Z with
  | Zpos d => Pos.iter xO p d
  | _ => p
  end.

(** The integers that are Numbers and whose neighbours are too. *)
Definition safe_integer (n : Z) : Prop := (- 2 ^ 53 < n < 2 ^ 53)%Z.

(** The fields the constructor fixes and no method changes. *)
Definition constructed (this : Experiment) : Prop :=
  uidKey this = "conical_uid" /\
  storagePrefix this = "experiment_" /\
  experimentKey this = "experiment_" +:+ id this /\
  min this = 0%Z /\
  max this = 100000%Z.

(** [clamp x lo hi], by cases. *)
Definition clamp (x lo hi : Q) : Q :=
  if Qltb x lo then lo else if Qltb hi x then hi else x.

(** The calls an event makes when every handler returns: one per
    registered function, in registration order, each with the variant. *)
Definition handler_calls (variant : option StoredVariant)
    (callbacks : list (option Handler)) : list call :=
  omap (fun cb => (fun f => HandlerCall (cb_name f) variant) <$> cb) callbacks.

(** The record of the specification: the JSON text of the object
    [{ variantId: <string> }]. *)
Definition spec_assignment_text (variantId : string) : string :=
  "{" +:+ QuoteJSONString "variantId" +:+ ":" +:+ QuoteJSONString variantId
  +:+ "}".

(** The record of the code: the JSON text of the object [{ id: <string> }]. *)
Definition assignment_text (variantId : string) : string :=
  "{" +:+ QuoteJSONString "id" +:+ ":" +:+ QuoteJSONString variantId +:+ "}".

(** ** Example data, after the test suite *)

Definition noop {A : Type} (name : string) : callback A :=
  {| cb_name := name; cb_body := fun _ w => (None, w) |}.

Definition variant_A : Variant :=
  {| v_id := "variant-A"; v_options := {| weight := 0.3 |};
     v_callback := Some (noop "A") |}.

Definition variant_B : Variant :=
  {| v_id := "variant-B"; v_options := {| weight := 0.7 |};
     v_callback := Some (noop "B") |}.

(** Two variants of weights 0.1 and 0.2. *)
Definition variant_tenth : Variant :=
  {| v_id := "v0"; v_options := {| weight := 0.1 |};
     v_callback := Some (noop "v0") |}.

Definition variant_fifth : Variant :=
  {| v_id := "v1"; v_options := {| weight := 0.2 |};
     v_callback := Some (noop "v1") |}.

(** The experiment [new Conical('test', ...)] with the given sample size
    and variants, and no expiry. *)
Definition test_experiment (size : Q) (vs : list Variant) : Experiment :=
  {| id := "test";
     description := VString "this is a test experiment";
     options := {| sampleSize := size; expiry := None |};
     uidKey := "conical_uid";
     storagePrefix := "experiment_";
     experimentKey := "experiment_test";
     min := 0;
     max := 100000;
     hasConverted := false;
     variants := vs;
     handlers := ∅ |}.

(** A world whose randomness source always returns [r]. *)
Definition test_world (r : Q) (m : gmap string string) : World :=
  {| localStorage := Some m; now := 1700000000000; random := fun _ => r;
     draws := 0 |}.

Definition uid_store : gmap string string := {[ "conical_uid" := "34702" ]}.

Definition zero_store : gmap string string := {[ "conical_uid" := "0" ]}.

Definition assigned_store : gmap string string :=
  <["experiment_test" := JSON_stringify {| sv_id := "variant-A" |}]> uid_store.

Definition no_options : OptionsArg :=
  {| arg_sampleSize := None; arg_expiry := None |}.

Definition complete_spy : Handler := noop "spy".

(** The test experiment with one variant and a [complete] handler. *)
Definition watched_experiment : Experiment :=
  {| id := "test";
     description := VString "this is a test experiment";
     options := {| sampleSize := 1; expiry := None |};
     uidKey := "conical_uid";
     storagePrefix := "experiment_";
     experimentKey := "experiment_test";
     min := 0;
     max := 100000;
     hasConverted := false;
     variants := [variant_A];
     handlers := {[ "complete" := [Some complete_spy] ]} |}.

(** The test experiment with the expiry [new Date(1)]. *)
Definition expired_experiment : Experiment :=
  {| id := "test";
     description := VString "this is a test experiment";
     options := {| sampleSize := 1; expiry := Some 1%Z |};
     uidKey := "conical_uid";
     storagePrefix := "experiment_";
     experimentKey := "experiment_test";
     min := 0;
     max := 100000;
     hasConverted := false;
     variants := [variant_A];
     handlers := ∅ |}.

(** ** Notions used to state further properties *)

(** The error of [container] when [window.localStorage] is undefined. *)
Definition storage_unavailable : exn :=
  Error "localStorage is unavailable in this environment".

(** A callback that returns normally and leaves the world as it is, as
    the spies of the test suite do. *)
Definition observer {A : Type} (cb : callback A) : Prop :=
  forall a w, cb_body cb a w = (None, w).

(** A list of registered handlers that are all functions and observers. *)
Definition observers (callbacks : list (option Handler)) : Prop :=
  Forall (fun cb => exists f, cb = Some f /\ observer f) callbacks.

(** The variants whose id is [chosen], in registration order. *)
Definition matching (chosen : string) (vs : list Variant) : list Variant :=
  List.filter (fun v => String.eqb (v_id v) chosen) vs.

(** The calls [start] makes for one matching variant whose callback is the
    function [f]: the [start] handlers, then the variant's action. *)
Definition start_calls (this : Experiment) (o : StoredVariant)
    (args : list value) (f : Action) : list call :=
  handler_calls (Some o) (default [] (handlers this !! "start"))
  ++ [ActionCall (cb_name f) args].

(** The calls [start] makes when every callback is an observer: for each
    matching variant, in registration order, those of [start_calls]. *)
Definition start_trace (this : Experiment) (o : StoredVariant)
    (args : list value) : list call :=
  flat_map
    (fun v =>
       match v_callback v with
       | Some f => start_calls this o args f
       | None => []
       end)
    (matching (sv_id o) (variants this)).

(** A second variant registered under the id of [variant_A]. *)
Definition variant_A_again : Variant :=
  {| v_id := "variant-A"; v_options := {| weight := 0.5 |};
     v_callback := Some (noop "A again") |}.

(** A variant registered without a callback. *)
Definition variant_silent : Variant :=
  {| v_id := "variant-A"; v_options := {| weight := 0.4 |};
     v_callback := None |}.

(** A handler that throws. *)
Definition failing_handler : Handler :=
  {| cb_name := "failing";
     cb_body := fun _ w => (Some (Error "handler failed"), w) |}.

(** A world in which [window.localStorage] is undefined. *)
Definition storageless_world : World :=
  {| localStorage := None; now := 1700000000000;
     random := fun _ => 0.347%Q; draws := 0 |}.


(** * The earlier build

    [src/unnamed/part_001] is an earlier build of the library, a
    constructor function [Experiment] with prototype methods;
    [src/unnamed/part_002] is the same build with another [complete] and
    another [trigger].  Its embedding reuses the world, the strings and
    the callbacks above.  [Storage] and [localStorage] are both undefined
    when the world has no store.  [Math.random] is the randomness source of
    the world. *)

Module Legacy.

Inductive exn : Type :=
  | Error (message : string)
  | TypeError (message : string)
  | ReferenceError (message : string)
  | OutOfModel (what : string).

(** The object [{ experimentId: ..., variantId: ... }] of [setVariant]. *)
Record Stored : Type := { experimentId : string; variantId : string }.

Definition JSON_stringify (o : Stored) : string :=
  "{" +:+ QuoteJSONString "experimentId" +:+ ":"
  +:+ QuoteJSONString (experimentId o)
  +:+ "," +:+ QuoteJSONString "variantId" +:+ ":"
  +:+ QuoteJSONString (variantId o) +:+ "}".

(** [JSON.parse] on the texts [JSON_stringify] produces; other texts are
    outside the embedding. *)
Definition JSON_parse (text : string) : exn + Stored :=
  match
    expect ("{" +:+ QuoteJSONString "experimentId" +:+ ":"
            +:+ String dquote EmptyString) text
  with
  | Some r =>
      match read_string r with
      | Some (e, r1) =>
          match
            expect ("," +:+ QuoteJSONString "variantId" +:+ ":"
                    +:+ String dquote EmptyString) r1
          with
          | Some r2 =>
              match read_string r2 with
              | Some (v, String c EmptyString) =>
                  if (code c =? 125)%N
                  then inr {| experimentId := e; variantId := v |}
                  else inl (OutOfModel "JSON.parse")
              | _ => inl (OutOfModel "JSON.parse")
              end
          | None => inl (OutOfModel "JSON.parse")
          end
      | None => inl (OutOfModel "JSON.parse")
      end
  | None => inl (OutOfModel "JSON.parse")
  end.

(** What a handler is called with: [f.apply(this, args)] passes the
    elements of [args] as the arguments, [f.call(this, args)] passes the
    array [args] as the one argument. *)
Inductive passed : Type :=
  | Spread (args : list (option Stored))
  | Packed (args : list (option Stored)).

Inductive call : Type :=
  | HandlerCall (name : string) (arguments : passed)
  | RunCall (name : string) (this : value).

Definition M (A : Type) : Type := World -> (exn + A) * World * list call.

Definition ret {A : Type} (a : A) : M A := fun w => (inr a, w, []).

Definition throw {A : Type} (e : exn) : M A := fun w => (inl e, w, []).

Definition bind {A B : Type} (m : M A) (k : A -> M B) : M B := fun w =>
  match m w with
  | (inl e, w1, t1) => (inl e, w1, t1)
  | (inr a, w1, t1) =>
      match k a w1 with
      | (r, w2, t2) => (r, w2, t1 ++ t2)
      end
  end.

Notation "'let+' x ':=' m 'in' k" := (bind m (fun x => k))
  (at level 10, x name, m at level 100, k at level 200, only parsing).

(** [xs.forEach(body)] and the [for] loops over an array. *)
Fixpoint for_each {A : Type} (xs : list A) (body : A -> M unit) : M unit :=
  match xs with
  | [] => ret tt
  | x :: rest => let+ _ := body x in for_each rest body
  end.

Record callback (A : Type) : Type := {
  cb_name : string;
  cb_body : A -> World -> option exn * World
}.
Arguments cb_name {A} _.
Arguments cb_body {A} _ _ _.

Definition Handler : Type := callback passed.

(** A variant's [run] is called with [args] as its [this] and no argument. *)
Definition Action : Type := callback value.

Definition invoke {A : Type} (record : string -> A -> call)
    (cb : option (callback A)) (arg : A) : M unit :=
  match cb with
  | None => throw (TypeError "callback is not a function")
  | Some f => fun w =>
      match cb_body f arg w with
      | (Some e, w1) => (inl e, w1, [record (cb_name f) arg])
      | (None, w1) => (inr tt, w1, [record (cb_name f) arg])
      end
  end.

(** The [options] object; [None] is a missing (or falsy) member, and
    [variant] holds the [id] of [options.variant]. *)
Record Options : Type := {
  sampleSize : option Q;
  expiry : option Z;
  variant : option string
}.

Definition no_options : Options :=
  {| sampleSize := None; expiry := None; variant := None |}.

(** The second argument of the constructor. *)
Inductive DescriptionArg : Type :=
  | DString (s : string)
  | DOptions (o : Options)
  | DMissing.

Record VariantOptions : Type := { weight : option Q }.

(** A registered variant; [v_options] is [None] when [null] was passed. *)
Record Variant : Type := {
  v_id : string;
  run : option Action;
  v_options : option VariantOptions
}.

Record Exp : Type := {
  id : string;
  options : Options;
  description : option string;
  storagePrefix : string;
  hasConverted : bool;
  variants : list Variant;
  handlers : gmap string (list (option Handler))
}.

Definition min : Z := 0.
Definition max : Z := 100000.
Definition uidKey : string := "conical_uid".

Inductive VariantArg : Type :=
  | ArgObject (weight : option Q)
  | ArgFunction (f : Action)
  | ArgUndefined
  | ArgNull.

Definition unsupported : exn :=
  Error "Local storage is not supported in your browser.".

(** The check [typeof Storage === 'undefined']. *)
Definition check_Storage : M unit := fun w =>
  match localStorage w with
  | Some _ => (inr tt, w, [])
  | None => (inl unsupported, w, [])
  end.

Definition not_defined : exn := ReferenceError "localStorage is not defined".

(** The methods of the global [localStorage], which must be defined. *)
Definition getItem (key : string) : M (option string) := fun w =>
  match localStorage w with
  | Some m => (inr (m !! key), w, [])
  | None => (inl not_defined, w, [])
  end.

Definition setItem (key v : string) : M unit := fun w =>
  match localStorage w with
  | Some m => (inr tt, with_storage (Some (<[key := v]> m)) w, [])
  | None => (inl not_defined, w, [])
  end.

Definition removeItem (key : string) : M unit := fun w =>
  match localStorage w with
  | Some m => (inr tt, with_storage (Some (delete key m)) w, [])
  | None => (inl not_defined, w, [])
  end.

(** [Math.random()]. *)
Definition Math_random : M Q := fun w =>
  (inr (random w (draws w)),
   {| localStorage := localStorage w; now := now w;
      random := random w; draws := S (draws w) |}, []).

Definition hasExpired (this : Exp) : M bool := fun w =>
  (inr (match expiry (options this) with
        | Some t => (now w >? t)%Z
        | None => false
        end), w, []).

Definition push_variant (v : Variant) (this : Exp) : Exp :=
  {| id := id this; options := options this; description := description this;
     storagePrefix := storagePrefix this; hasConverted := hasConverted this;
     variants := variants this ++ [v]; handlers := handlers this |}.

Definition addVariant (id : value) (options : VariantArg) (_cb : option Action)
    (this : Exp) : exn + Exp :=
  match id with
  | VString s =>
      if invalid_name id then inl (Error "Variant id is required.")
      else
        let '(_cb, options) :=
          match options with
          | ArgFunction f => (Some f, ArgObject None)
          | ArgUndefined => (None, ArgObject None)
          | _ => (_cb, options)
          end in
        inr (push_variant
               {| v_id := s; run := _cb;
                  v_options :=
                    match options with
                    | ArgObject w => Some {| weight := w |}
                    | _ => None
                    end |} this)
  | _ => inl (Error "Variant id is required.")
  end.

Definition setId (n : Z) : M Z :=
  let+ _ := setItem uidKey (Number_toString n) in
  ret n.

Definition getId : M (option Z) :=
  let+ _ := check_Storage in
  let+ v := getItem uidKey in
  ret (parseInt (ToString v)).

Definition hasId : M bool :=
  let+ n := getId in
  ret (truthy_number n).

Definition allocateId : M (option Z) :=
  let generateRandomId (min max : Z) : M (option Z) :=
    let+ r := Math_random in
    let userId := Qfloor (r * inject_Z max + inject_Z min) in
    let+ n := setId userId in
    ret (Some n) in
  let+ has := hasId in
  if has then getId else generateRandomId min max.

Definition setVariant (this : Exp) (variant_id : string) : M unit :=
  let+ _ := check_Storage in
  setItem (storagePrefix this)
    (JSON_stringify {| experimentId := id this; variantId := variant_id |}).

Definition getVariant (this : Exp) : M (option Stored) :=
  let+ _ := check_Storage in
  let+ variant := getItem (storagePrefix this) in
  if truthy_string variant then
    match JSON_parse (ToString variant) with
    | inr o => ret (Some o)
    | inl e => throw e
    end
  else ret None.

Definition clearVariant (this : Exp) : M unit :=
  let+ _ := check_Storage in
  removeItem (storagePrefix this).

Definition hasVariant (this : Exp) (variant_id : string) : bool :=
  existsb (fun v => String.eqb (v_id v) variant_id) (variants this).

(** The two passes over [description] and [options]: the body runs once
    under [new], and twice when the function is called without [new] and
    calls itself with the arguments it has already shifted. *)
Definition shift (description : DescriptionArg) (options : option Options)
  : option string * option Options :=
  match description with
  | DString s => (Some s, options)
  | DOptions o => (None, Some o)
  | DMissing => (None, None)
  end.

Definition Experiment (with_new : bool) (id : value)
    (description : DescriptionArg) (options : option Options) : M Exp :=
  match id with
  | VString s =>
      if invalid_name id then throw (Error "Experiment id is required.")
      else
        let '(description, options) := shift description options in
        let '(description, options) :=
          if with_new then (description, options)
          else
            shift (match description with
                   | Some d => DString d
                   | None => DMissing
                   end) options in
        let this :=
          {| id := s;
             options := default no_options options;
             description := description;
             storagePrefix := "experiment_" +:+ s;
             hasConverted := false;
             variants := [];
             handlers := ∅ |} in
        let+ _ := allocateId in
        let+ _ :=
          match variant (Legacy.options this) with
          | Some v =>
              if hasVariant this v then setVariant this v else ret tt
          | None => ret tt
          end in
        ret this
  | _ => throw (Error "Experiment id is required.")
  end.

Definition isParticipating (this : Exp) : M bool :=
  let+ variant := getVariant this in
  ret (match variant with Some _ => true | None => false end).

(** [x || y] for a number that may be missing. *)
Definition or_default (x : option Q) (y : Q) : Q :=
  match x with
  | Some q => if truthy_Q q then q else y
  | None => y
  end.

Definition canParticipate (this : Exp) : M bool :=
  let+ uid := getId in
  ret (match uid with
       | Some n =>
           Number_lt (Number_of_Z n)
             (Number_mul (Number_of_Z max)
                (Number_of_Q (or_default (sampleSize (options this)) 1)))
       | None => false
       end).

(** The loop of [allocateVariant]: the id of the variant returned, or the
    [TypeError] of reading [weight] on [null] options.
    [cumerlativeWeight] is a Number, to which [+=] adds each weight. *)
Fixpoint allocate_loop (vs : list Variant)
    (cumerlativeWeight randomVariant : Number) : exn + string :=
  match vs with
  | [] => inr "no-chosen-variant"
  | v :: rest =>
      match v_options v with
      | None => inl (TypeError "cannot read property weight of null")
      | Some o =>
          let cumerlativeWeight :=
            Number_add cumerlativeWeight
              (Number_of_Q (or_default (weight o) 0.5)) in
          if Number_ge cumerlativeWeight randomVariant then inr (v_id v)
          else allocate_loop rest cumerlativeWeight randomVariant
      end
  end.

(** The loop, from a given cumulative weight and for a given draw. *)
Definition allocate_from (vs : list Variant) (cumerlativeWeight randomVariant : Q)
  : exn + string :=
  allocate_loop vs (Number_of_Q cumerlativeWeight) (Number_of_Q randomVariant).

Definition participating (this : Exp) : M unit :=
  let+ randomVariant := Math_random in
  match allocate_from (variants this) 0 randomVariant with
  | inr chosen => setVariant this chosen
  | inl e => throw e
  end.

Definition notParticipating (this : Exp) : M unit :=
  setVariant this "not-participating".

Definition segment (this : Exp) : M unit :=
  let+ expired := hasExpired this in
  if expired then throw (Error "This experiment has expired.")
  else if (length (variants this) <=? 0)%nat then
    throw (Error "This experiment has no variants.")
  else
    let+ already := isParticipating this in
    if already then ret tt
    else
      let+ can := canParticipate this in
      if can then participating this else notParticipating this.

(** [trigger(event, ...args)], with the way the build passes [args]. *)
Definition trigger_with (pass : list (option Stored) -> passed) (this : Exp)
    (event : value) (args : list (option Stored)) : M unit :=
  match event with
  | VString s =>
      if invalid_name event
      then throw (Error "Handler event name must be a string.")
      else
        for_each (default [] (handlers this !! s))
          (fun callback => invoke HandlerCall callback (pass args))
  | _ => throw (Error "Handler event name must be a string.")
  end.

(** [trigger] of [part_001]: [callbacks[i].apply(this, args)]. *)
Definition trigger : Exp -> value -> list (option Stored) -> M unit :=
  trigger_with Spread.

(** [trigger] of [part_002]: [callbacks[i].call(this, args)]. *)
Definition trigger_002 : Exp -> value -> list (option Stored) -> M unit :=
  trigger_with Packed.

(** [this.handlers] is an Array here too: see [Array_property]. *)
Definition registrable (handlers : gmap string (list (option Handler)))
    (name : string) : exn + unit :=
  match handlers !! name with
  | Some _ => inr tt
  | None =>
      if String.eqb name "__proto__" then inl (OutOfModel "Array.prototype")
      else if Array_property name
      then inl (TypeError "this.handlers[event].push is not a function")
      else inr tt
  end.

Definition on (event : value) (_cb : option Handler) (this : Exp) : exn + Exp :=
  match event with
  | VString s =>
      if invalid_name event
      then inl (Error "Handler event name must be a string.")
      else
        match registrable (handlers this) s with
        | inl e => inl e
        | inr _ =>
            inr {| id := id this; options := options this;
                   description := description this;
                   storagePrefix := storagePrefix this;
                   hasConverted := hasConverted this;
                   variants := variants this;
                   handlers :=
                     <[s := default [] (handlers this !! s) ++ [_cb]]>
                       (handlers this) |}
        end
  | _ => inl (Error "Handler event name must be a string.")
  end.

(** [chosenVariant.variantId], which throws when [chosenVariant] is [null]. *)
Definition get_variantId (chosenVariant : option Stored) : M string :=
  match chosenVariant with
  | Some o => ret (variantId o)
  | None => throw (TypeError "cannot read property variantId of null")
  end.

Definition start (args : value) (this : Exp) : M unit :=
  let+ chosenVariant := getVariant this in
  for_each (variants this) (fun v =>
    let+ chosen := get_variantId chosenVariant in
    if String.eqb (v_id v) chosen then
      let+ _ := invoke RunCall (run v) args in
      trigger this (VString "start") [chosenVariant]
    else ret tt).

Definition converted (this : Exp) : Exp :=
  {| id := id this; options := options this; description := description this;
     storagePrefix := storagePrefix this; hasConverted := true;
     variants := variants this; handlers := handlers this |}.

(** [complete] of [part_001]: the handlers, then the clearing.  The object
    it leaves is returned beside the run. *)
Definition complete (this : Exp) (w : World)
  : Exp * ((exn + unit) * World * list call) :=
  let this := converted this in
  (this,
   (let+ chosenVariant := getVariant this in
    let+ _ := trigger this (VString "complete") [chosenVariant] in
    clearVariant this) w).

(** [complete] of [part_002]: the clearing, then the handlers. *)
Definition complete_002 (this : Exp) (w : World)
  : Exp * ((exn + unit) * World * list call) :=
  let this := converted this in
  (this,
   (let+ _ := clearVariant this in
    let+ chosenVariant := getVariant this in
    trigger_002 this (VString "complete") [chosenVariant]) w).

End Legacy.

(** ** Notions used to state the properties of the earlier build *)

Definition legacy_observer {A : Type} (cb : Legacy.callback A) : Prop :=
  forall a w, Legacy.cb_body cb a w = (None, w).

Definition legacy_observers (callbacks : list (option Legacy.Handler)) : Prop :=
  Forall (fun cb => exists f, cb = Some f /\ legacy_observer f) callbacks.

(** The calls an event makes when every handler returns. *)
Definition legacy_handler_calls (arguments : Legacy.passed)
    (callbacks : list (option Legacy.Handler)) : list Legacy.call :=
  omap (fun cb => (fun f => Legacy.HandlerCall (Legacy.cb_name f) arguments)
                    <$> cb) callbacks.

(** The variant the current build registers for a variant of the earlier
    build: the weight is defaulted at registration. *)
Definition registered_now (v : Legacy.Variant) : Variant :=
  {| v_id := Legacy.v_id v;
     v_options :=
       {| weight :=
            Legacy.or_default
              (match Legacy.v_options v with
               | Some o => Legacy.weight o
               | None => None
               end) 0.5 |};
     v_callback := None |}.

(** The variants of the earlier build whose id is [chosen]. *)
Definition legacy_matching (chosen : string) (vs : list Legacy.Variant)
  : list Legacy.Variant :=
  List.filter (fun v => String.eqb (Legacy.v_id v) chosen) vs.

(** The calls the earlier [start] makes when every callback is an
    observer: for each matching variant, its [run], then the [start]
    handlers. *)
Definition legacy_start_trace (this : Legacy.Exp) (o : Legacy.Stored)
    (args : value) : list Legacy.call :=
  flat_map
    (fun v =>
       match Legacy.run v with
       | Some f =>
           Legacy.RunCall (Legacy.cb_name f) args
           :: legacy_handler_calls (Legacy.Spread [Some o])
                (default [] (Legacy.handlers this !! "start"))
       | None => []
       end)
    (legacy_matching (Legacy.variantId o) (Legacy.variants this)).

Definition legacy_noop {A : Type} (name : string) : Legacy.callback A :=
  {| Legacy.cb_name := name; Legacy.cb_body := fun _ w => (None, w) |}.

Definition legacy_variant_A : Legacy.Variant :=
  {| Legacy.v_id := "variant-A"; Legacy.run := Some (legacy_noop "A");
     Legacy.v_options := Some {| Legacy.weight := Some 0.3%Q |} |}.

Definition legacy_variant_B : Legacy.Variant :=
  {| Legacy.v_id := "variant-B"; Legacy.run := Some (legacy_noop "B");
     Legacy.v_options := Some {| Legacy.weight := Some 0.7%Q |} |}.

(** A variant registered with the weight 0, and one registered without a
    weight. *)
Definition legacy_variant_zero : Legacy.Variant :=
  {| Legacy.v_id := "variant-zero"; Legacy.run := Some (legacy_noop "zero");
     Legacy.v_options := Some {| Legacy.weight := Some 0%Q |} |}.

Definition legacy_variant_unweighted : Legacy.Variant :=
  {| Legacy.v_id := "variant-unweighted";
     Legacy.run := Some (legacy_noop "unweighted");
     Legacy.v_options := Some {| Legacy.weight := None |} |}.

(** The experiment [hyp('test', 'this is a test experiment', options)] of
    the earlier test suite, with a [start] and a [complete] handler. *)
Definition legacy_experiment (o : Legacy.Options) (vs : list Legacy.Variant)
  : Legacy.Exp :=
  {| Legacy.id := "test";
     Legacy.options := o;
     Legacy.description := Some "this is a test experiment";
     Legacy.storagePrefix := "experiment_test";
     Legacy.hasConverted := false;
     Legacy.variants := vs;
     Legacy.handlers :=
       {[ "start" := [Some (legacy_noop "on start")];
          "complete" := [Some (legacy_noop "on complete")] ]} |}.

Definition legacy_assigned_store : gmap string string :=
  <["experiment_test" :=
      Legacy.JSON_stringify
        {| Legacy.experimentId := "test"; Legacy.variantId := "variant-A" |}]>
    uid_store.

(** * Properties *)

(** ** Serialisation round trips *)

Lemma append_cons (x : ascii) (a b : string) :
  String x a +:+ b = String x (a +:+ b).
Proof. reflexivity. Qed.

Lemma append_assoc (a b c : string) : (a +:+ b) +:+ c = a +:+ (b +:+ c).
Proof.
  induction a as [|x a IH]; [reflexivity|].
  rewrite !append_cons. f_equal. exact IH.
Qed.

Lemma read_string_escape (c : ascii) (tail : string) :
  read_string (escape c +:+ tail) =
  match read_string tail with
  | Some (t, rest) => Some (String c t, rest)
  | None => None
  end.
Proof.
  destruct c as [[] [] [] [] [] [] [] []]; reflexivity.
Qed.

Lemma read_string_escape_all (s rest : string) :
  read_string (escape_all s +:+ String dquote rest) = Some (s, rest).
Proof.
  induction s as [|c s IH]; [reflexivity|].
  cbn [escape_all]. rewrite append_assoc, read_string_escape, IH.
  reflexivity.
Qed.

Lemma expect_prefix (p r : string) : expect p (p +:+ r) = Some r.
Proof.
  induction p as [|a p IH]; [reflexivity|].
  rewrite append_cons. cbn [expect]. now rewrite Ascii.eqb_refl.
Qed.

Lemma JSON_stringify_text (o : StoredVariant) :
  JSON_stringify o =
  ("{" +:+ QuoteJSONString "id" +:+ ":" +:+ String dquote EmptyString)
  +:+ (escape_all (sv_id o) +:+ String dquote "}").
Proof.
  unfold JSON_stringify, QuoteJSONString at 2.
  rewrite (append_cons dquote), (append_assoc (escape_all (sv_id o))).
  reflexivity.
Qed.

Lemma JSON_parse_stringify (o : StoredVariant) :
  JSON_parse (JSON_stringify o) = inr o.
Proof.
  rewrite JSON_stringify_text. unfold JSON_parse.
  rewrite expect_prefix, read_string_escape_all.
  destruct o; reflexivity.
Qed.

Lemma JSON_stringify_truthy (o : StoredVariant) :
  truthy_string (Some (JSON_stringify o)) = true.
Proof. reflexivity. Qed.






(** ** Numbers *)

Section Numbers.
Local Open Scope Z_scope.

Lemma Number_of_Q_compat (p q : Q) : p == q -> Number_of_Q p = Number_of_Q q.
Proof. intros H. unfold Number_of_Q. now rewrite (Qred_complete p q H). Qed.

Lemma truthy_Q_zero (q : Q) : q == 0 -> truthy_Q q = false.
Proof. intros H. unfold truthy_Q. now rewrite (Number_of_Q_compat q 0 H). Qed.

Lemma truthy_Q_nonzero (q : Q) : truthy_Q q = true -> ~ q == 0.
Proof. intros H E. rewrite (truthy_Q_zero q E) in H. discriminate. Qed.

Lemma digits2_pos_bounds (p : positive) :
  2 ^ (Zpos (digits2_pos p) - 1) <= Zpos p < 2 ^ Zpos (digits2_pos p).
Proof.
  induction p as [p IH|p IH|]; cbn [digits2_pos].
  - rewrite Pos2Z.inj_succ. unfold Z.succ. rewrite Z.add_simpl_r.
    rewrite (Z.pow_add_r 2 _ 1) by lia.
    replace (2 ^ Zpos (digits2_pos p)) with (2 * 2 ^ (Zpos (digits2_pos p) - 1)) in *
      by (rewrite <- Z.pow_succ_r by lia; f_equal; lia).
    lia.
  - rewrite Pos2Z.inj_succ. unfold Z.succ. rewrite Z.add_simpl_r.
    rewrite (Z.pow_add_r 2 _ 1) by lia.
    replace (2 ^ Zpos (digits2_pos p)) with (2 * 2 ^ (Zpos (digits2_pos p) - 1)) in *
      by (rewrite <- Z.pow_succ_r by lia; f_equal; lia).
    lia.
  - cbn. lia.
Qed.

Lemma iter_xO_digits (p d : positive) :
  digits2_pos (Pos.iter xO p d) = (digits2_pos p + d)%positive.
Proof.
  induction d as [|d IH] using Pos.peano_ind.
  - cbn. lia.
  - rewrite Pos.iter_succ. cbn [digits2_pos]. rewrite IH. lia.
Qed.

Lemma iter_xO_value (p d : positive) :
  Zpos (Pos.iter xO p d) = Zpos p * 2 ^ Zpos d.
Proof.
  induction d as [|d IH] using Pos.peano_ind.
  - cbn. lia.
  - rewrite Pos.iter_succ, Pos2Z.inj_xO, IH, Pos2Z.inj_succ, Z.pow_succ_r by lia. lia.
Qed.

Lemma binary_round_aux_aligned (s : bool) (mz : positive) (e : Z) :
  Zpos (digits2_pos mz) = 53 -> -52 <= e <= 0 ->
  binary_round_aux prec emax s (Zpos mz) e loc_Exact = S754_finite s mz e.
Proof.
  intros Hmz He. unfold binary_round_aux, shr_fexp.
  cbn [Zdigits2 shr_record_of_loc].
  replace (fexp prec emax (Zpos (digits2_pos mz) + e) - e) with 0
    by (unfold fexp, emin, prec, emax; lia).
  cbn [shr shr_m loc_of_shr_record round_nearest_even Zdigits2 shr_record_of_loc].
  replace (fexp prec emax (Zpos (digits2_pos mz) + e) - e) with 0
    by (unfold fexp, emin, prec, emax; lia).
  cbn [shr shr_m].
  replace (e <=? emax - prec) with true
    by (symmetry; apply Z.leb_le; unfold emax, prec; lia).
  reflexivity.
Qed.

Lemma digits2_pos_small (p : positive) :
  Zpos p < 2 ^ 53 -> Zpos (digits2_pos p) <= 53.
Proof.
  intros Hp. destruct (digits2_pos_bounds p) as [Hl _].
  destruct (Z_le_gt_dec (Zpos (digits2_pos p)) 53) as [|Hgt]; [assumption|].
  exfalso. assert (2 ^ 53 <= 2 ^ (Zpos (digits2_pos p) - 1))
    by (apply Z.pow_le_mono_r; lia). lia.
Qed.

Lemma Number_of_Z_small (s : bool) (p : positive) :
  Zpos p < 2 ^ 53 ->
  binary_round prec emax s p 0
  = S754_finite s (aligned p) (Zpos (digits2_pos p) - 53).
Proof.
  intros Hp. pose proof (digits2_pos_small p Hp) as HD.
  unfold binary_round, shl_align, aligned.
  replace (fexp prec emax (Zpos (digits2_pos p) + 0)) with (Zpos (digits2_pos p) - 53)
    by (unfold fexp, emin, prec, emax; lia).
  rewrite Z.sub_0_r.
  assert (Hshape : (Zpos (digits2_pos p) - 53 = 0 /\ 53 - Zpos (digits2_pos p) = 0)
                   \/ exists d, Zpos (digits2_pos p) - 53 = Zneg d
                                /\ 53 - Zpos (digits2_pos p) = Zpos d).
  { destruct (Zpos (digits2_pos p) - 53) as [|d|d] eqn:E; [left; lia|lia|].
    right. exists d. split; [reflexivity|lia]. }
  destruct Hshape as [[E1 E2]|(d & E1 & E2)]; rewrite E1, E2.
  - apply binary_round_aux_aligned; lia.
  - apply binary_round_aux_aligned; [rewrite iter_xO_digits|]; lia.
Qed.

Lemma aligned_value (p : positive) :
  Zpos (digits2_pos p) <= 53 ->
  Zpos (aligned p) = Zpos p * 2 ^ (53 - Zpos (digits2_pos p)).
Proof.
  intros HD. unfold aligned.
  destruct (53 - Zpos (digits2_pos p)) as [|d|d] eqn:E; [cbn; lia| |lia].
  apply iter_xO_value.
Qed.

(** On safe integers the order of Numbers is the order of integers. *)
Lemma Number_lt_integers (a b : Z) :
  safe_integer a -> (0 <= b < 2 ^ 53)%Z ->
  Number_lt (Number_of_Z a) (Number_of_Z b) = (a <? b)%Z.
Proof.
  intros Ha Hb. unfold safe_integer in Ha. unfold Number_of_Z, binary_normalize.
  destruct a as [|p|p]; destruct b as [|q|q]; try lia.
  - reflexivity.
  - rewrite Number_of_Z_small by lia. reflexivity.
  - rewrite Number_of_Z_small by lia. reflexivity.
  - rewrite !Number_of_Z_small by lia.
    assert (HDp : (Zpos (digits2_pos p) <= 53)%Z) by (apply digits2_pos_small; lia).
    assert (HDq : (Zpos (digits2_pos q) <= 53)%Z) by (apply digits2_pos_small; lia).
    unfold Number_lt, SFltb, SFcompare.
    destruct (digits2_pos_bounds p) as [Hpl Hpu].
    destruct (digits2_pos_bounds q) as [Hql Hqu].
    destruct (Z.compare_spec (Zpos (digits2_pos p) - 53) (Zpos (digits2_pos q) - 53))
      as [E|E|E].
    + change (Pos.compare_cont Eq (aligned p) (aligned q))
        with (Zpos (aligned p) ?= Zpos (aligned q))%Z.
      rewrite !aligned_value by assumption.
      replace (Zpos (digits2_pos q)) with (Zpos (digits2_pos p)) by lia.
      rewrite <- Zmult_compare_compat_r
        by (apply Z.lt_gt, Z.pow_pos_nonneg; lia).
      unfold Z.ltb. reflexivity.
    + symmetry. apply Z.ltb_lt.
      assert (2 ^ Zpos (digits2_pos p) <= 2 ^ (Zpos (digits2_pos q) - 1))%Z
        by (apply Z.pow_le_mono_r; lia). lia.
    + symmetry. apply Z.ltb_ge.
      assert (2 ^ Zpos (digits2_pos q) <= 2 ^ (Zpos (digits2_pos p) - 1))%Z
        by (apply Z.pow_le_mono_r; lia). lia.
  - rewrite (Number_of_Z_small true) by lia. reflexivity.
  - rewrite (Number_of_Z_small true), (Number_of_Z_small false) by lia. reflexivity.
Qed.

(** The Number of an integer that is not negative is not below zero. *)
Lemma Number_of_Z_nonneg (n : Z) :
  (0 <= n)%Z -> Number_lt (Number_of_Z n) (S754_zero false) = false.
Proof.
  intros Hn. destruct n as [|p|p]; [reflexivity| |lia].
  unfold Number_of_Z, binary_normalize, binary_round.
  destruct (shl_align _ _ _) as [mz ez]. unfold binary_round_aux.
  destruct (shr_fexp _ _ _ _ _) as [mrs1 e1].
  destruct (shr_fexp _ _ _ _ _) as [mrs2 e2].
  destruct (shr_m mrs2); [reflexivity| |reflexivity].
  destruct (e2 <=? emax - prec)%Z; reflexivity.
Qed.

End Numbers.

(** ** Storage operations on an available store *)

(** Unfolds the storage primitives under a hypothesis [H] that gives the
    contents of the store. *)
Ltac run_store H :=
  unfold bind, container, getItem, setItem, removeItem, ret;
  repeat (rewrite H; cbv beta iota);
  cbn [app fmap option_fmap option_map].

Section Store.
Variable this : Experiment.
Variable w : World.
Variable m : gmap string string.
Hypothesis available : localStorage w = Some m.

Lemma container_available : container w = (inr tt, w, []).
Proof. run_store available. reflexivity. Qed.

Lemma getId_available :
  getId this w = (inr (parseInt (ToString (m !! uidKey this))), w, []).
Proof. unfold getId. run_store available. reflexivity. Qed.

Lemma hasId_available :
  hasId this w
  = (inr (truthy_number (parseInt (ToString (m !! uidKey this)))), w, []).
Proof. unfold hasId, bind. rewrite getId_available. reflexivity. Qed.

Lemma setId_available (n : Z) :
  setId this n w
  = (inr tt, with_storage (Some (<[uidKey this := Number_toString n]> m)) w, []).
Proof. unfold setId. run_store available. reflexivity. Qed.

Lemma setVariant_available (variant : Chosen) :
  setVariant this variant w
  = (inr tt,
     with_storage
       (Some (<[experimentKey this :=
                  JSON_stringify {| sv_id := chosen_id variant |}]> m)) w,
     []).
Proof. unfold setVariant. run_store available. reflexivity. Qed.

Lemma clearVariant_available :
  clearVariant this w
  = (inr tt, with_storage (Some (delete (experimentKey this) m)) w, []).
Proof. unfold clearVariant. run_store available. reflexivity. Qed.

Lemma getVariant_absent :
  m !! experimentKey this = None ->
  getVariant this w = (inr None, w, []).
Proof.
  intros Hk. unfold getVariant. run_store available.
  rewrite Hk. reflexivity.
Qed.

Lemma getVariant_stored (o : StoredVariant) :
  m !! experimentKey this = Some (JSON_stringify o) ->
  getVariant this w = (inr (Some o), w, []).
Proof.
  intros Hk. unfold getVariant. run_store available.
  rewrite Hk, JSON_stringify_truthy.
  cbn [ToString]. rewrite JSON_parse_stringify. reflexivity.
Qed.

Lemma canParticipate_available :
  canParticipate this w
  = (inr (match parseInt (ToString (m !! uidKey this)) with
          | Some n =>
              Number_lt (Number_of_Z n)
                (Number_mul (Number_of_Z (max this))
                   (Number_of_Q (Qmin (Qmax (sampleSize (options this)) 0) 1)))
          | None => false
          end), w, []).
Proof. unfold canParticipate, bind. rewrite getId_available. reflexivity. Qed.
End Store.

Lemma getVariant_unavailable (this : Experiment) (w : World) :
  localStorage w = None ->
  getVariant this w
  = (inl (Error "localStorage is unavailable in this environment"), w, []).
Proof. intros Hm. unfold getVariant. run_store Hm. reflexivity. Qed.

Lemma getId_unavailable (this : Experiment) (w : World) :
  localStorage w = None ->
  getId this w
  = (inl (Error "localStorage is unavailable in this environment"), w, []).
Proof. intros Hm. unfold getId. run_store Hm. reflexivity. Qed.

(** Reading the stored variant changes nothing and calls nothing. *)
Lemma getVariant_pure (this : Experiment) (w : World) :
  exists r, getVariant this w = (r, w, []).
Proof.
  destruct (localStorage w) as [m|] eqn:Hm.
  - unfold getVariant. run_store Hm.
    destruct (truthy_string (m !! experimentKey this)); unfold ret.
    + destruct (JSON_parse _); eexists; reflexivity.
    + eexists; reflexivity.
  - eexists. apply getVariant_unavailable, Hm.
Qed.

Lemma participating_available (this : Experiment) (w : World)
    (m : gmap string string) :
  localStorage w = Some m ->
  participating this w
  = (inr tt,
     with_storage
       (Some (<[experimentKey this :=
                  JSON_stringify
                    {| sv_id :=
                         chosen_id
                           (allocate_from (variants this) 0
                              (random w (draws w))) |}]> m))
       (drawn w),
     []).
Proof.
  intros Hm. unfold participating, allocateVariant, bind, draw, ret.
  fold (drawn w).
  rewrite (setVariant_available this (drawn w) m Hm). reflexivity.
Qed.

(** ** The paths of [segment] *)

Lemma segment_expired (this : Experiment) (w : World) (m : gmap string string) :
  localStorage w = Some m ->
  hasExpired this w = (inr true, w, []) ->
  segment this w
  = (inl (Error "this experiment has expired"),
     with_storage (Some (delete (experimentKey this) m)) w, []).
Proof.
  intros Hm He. unfold segment, bind at 1. rewrite He.
  unfold bind. rewrite (clearVariant_available this w m Hm). reflexivity.
Qed.

Lemma segment_no_variants (this : Experiment) (w : World) :
  hasExpired this w = (inr false, w, []) ->
  variants this = [] ->
  segment this w = (inl (Error "this experiment has no variants"), w, []).
Proof.
  intros He Hv. unfold segment, bind at 1. rewrite He, Hv. reflexivity.
Qed.

Lemma segment_already (this : Experiment) (w : World) (o : StoredVariant) :
  hasExpired this w = (inr false, w, []) ->
  variants this <> [] ->
  getVariant this w = (inr (Some o), w, []) ->
  segment this w = (inr tt, w, []).
Proof.
  intros He Hv Hg. unfold segment, bind at 1. rewrite He.
  destruct (variants this) as [|v vs]; [congruence|]. cbn [length Nat.leb].
  unfold isParticipating, bind. rewrite Hg. reflexivity.
Qed.

Lemma segment_fresh (this : Experiment) (w : World) (can : bool) :
  hasExpired this w = (inr false, w, []) ->
  variants this <> [] ->
  getVariant this w = (inr None, w, []) ->
  canParticipate this w = (inr can, w, []) ->
  segment this w
  = if can then participating this w else notParticipating this w.
Proof.
  intros He Hv Hg Hc. unfold segment, bind at 1. rewrite He.
  destruct (variants this) as [|v vs] eqn:Ev; [congruence|]. cbn [length Nat.leb].
  unfold isParticipating, bind.
  rewrite Hg. unfold ret. cbv beta iota.
  rewrite Hc. cbv beta iota. cbn [app].
  destruct can.
  - destruct (participating this w) as [[r w1] t1]. reflexivity.
  - destruct (notParticipating this w) as [[r w1] t1]. reflexivity.
Qed.

Lemma segment_failed_read (this : Experiment) (w : World) (e : exn) :
  hasExpired this w = (inr false, w, []) ->
  variants this <> [] ->
  getVariant this w = (inl e, w, []) ->
  segment this w = (inl e, w, []).
Proof.
  intros He Hv Hg. unfold segment, bind at 1. rewrite He.
  destruct (variants this) as [|v vs]; [congruence|]. cbn [length Nat.leb].
  unfold isParticipating, bind. rewrite Hg. reflexivity.
Qed.

(** ** The weighted draw *)

Lemma allocate_loop_selected (vs : list Variant) (acc r : Number) :
  selected_from acc vs r (allocate_loop vs acc r).
Proof.
  revert acc. induction vs as [|v vs IH]; intros acc.
  - right. split; [|reflexivity]. cbn. intros k Hk. lia.
  - cbn [allocate_loop].
    destruct (Number_ge (Number_add acc (Number_of_Q (weight (v_options v)))) r)
      eqn:E.
    + left. exists 0%nat, v. repeat split.
      * exact E.
      * intros j Hj. lia.
    + destruct (IH (Number_add acc (Number_of_Q (weight (v_options v)))))
        as [(k & v' & Hl & Hr & Hf & Hc) | (Hf & Hc)].
      * left. exists (S k), v'. repeat split; [exact Hl|exact Hr| |exact Hc].
        intros [|j] Hj; [exact E|]. apply (Hf j). lia.
      * right. split; [|exact Hc].
        intros [|k] Hk; [exact E|]. apply (Hf k). cbn in Hk. lia.
Qed.

Lemma allocate_from_selected (vs : list Variant) (r : Q) :
  selected vs r (allocate_from vs 0 r).
Proof. apply allocate_loop_selected. Qed.

(** C1. For an experiment with variants, not expired, in which the user is
    not segmented yet and is eligible, and for every draw [r] of the
    randomness source, [segment] raises no error and persists the id of
    the first variant, in registration order, whose cumulative weight is
    at least [r], or the sentinel [no-chosen-variant] when no cumulative
    weight reaches [r].  The cumulative weight of a variant is the sum of
    the weights of it and of the variants before it, added from left to
    right as Numbers. *)
Theorem weighted_draw_selects (this : Experiment) (w : World)
    (m : gmap string string) :
  variants this <> [] ->
  localStorage w = Some m ->
  hasExpired this w = (inr false, w, []) ->
  m !! experimentKey this = None ->
  canParticipate this w = (inr true, w, []) ->
  exists c w1,
    selected (variants this) (random w (draws w)) c /\
    segment this w = (inr tt, w1, []) /\
    getVariant this w1 = (inr (Some {| sv_id := chosen_id c |}), w1, []).
Proof.
  intros Hv Hm He Hk Hc.
  exists (allocate_from (variants this) 0 (random w (draws w))).
  eexists. split; [apply allocate_from_selected|].
  rewrite (segment_fresh this w true He Hv
             (getVariant_absent this w m Hm Hk) Hc).
  rewrite (participating_available this w m Hm).
  split; [reflexivity|].
  eapply getVariant_stored; [reflexivity|].
  apply lookup_insert_eq.
Qed.

Lemma weighted_draw_selects_witness :
  exists c w1,
    selected [variant_A; variant_B] 0.347 c /\
    segment (test_experiment 1 [variant_A; variant_B]) (test_world 0.347 uid_store)
    = (inr tt, w1, []) /\
    getVariant (test_experiment 1 [variant_A; variant_B]) w1
    = (inr (Some {| sv_id := chosen_id c |}), w1, []).
Proof.
  apply (weighted_draw_selects
           (test_experiment 1 [variant_A; variant_B])
           (test_world 0.347 uid_store) uid_store);
    [discriminate | reflexivity..].
Defined.

(** With A (weight 0.3) then B (weight 0.7) and the draw 0.347, B is
    selected and persisted. *)
Example draw_selects_B :
  allocate_from [variant_A; variant_B] 0 0.347 = Registered variant_B /\
  exists w1,
    segment (test_experiment 1 [variant_A; variant_B]) (test_world 0.347 uid_store)
    = (inr tt, w1, []) /\
    getVariant (test_experiment 1 [variant_A; variant_B]) w1
    = (inr (Some {| sv_id := "variant-B" |}), w1, []).
Proof. split; [reflexivity|]. eexists. split; reflexivity. Qed.

(** With the single variant A (weight 0.3) the draw 0.347 is never
    reached, and the sentinel is persisted. *)
Example draw_selects_sentinel :
  exists w1,
    segment (test_experiment 1 [variant_A]) (test_world 0.347 uid_store)
    = (inr tt, w1, []) /\
    getVariant (test_experiment 1 [variant_A]) w1
    = (inr (Some {| sv_id := "no-chosen-variant" |}), w1, []).
Proof. eexists. split; reflexivity. Qed.

(** The cumulative weight is the Number that [+=] computes: [0.1 + 0.2]
    is the Number 0.30000000000000004, which reaches the draw
    0.30000000000000004, so the second variant is selected; the draw
    0.30000000000000008, read as the next Number above, is not reached. *)
Example draw_meets_rounded_sum :
  weight_through (Number_of_Q 0) [variant_tenth; variant_fifth] 1
  = Number_of_Q 0.30000000000000004 /\
  allocate_from [variant_tenth; variant_fifth] 0 0.30000000000000004
  = Registered variant_fifth /\
  allocate_from [variant_tenth; variant_fifth] 0 0.3
  = Registered variant_fifth /\
  allocate_from [variant_tenth; variant_fifth] 0 0.30000000000000008
  = Sentinel "no-chosen-variant".
Proof. repeat split; vm_compute; reflexivity. Qed.

(** ** Objects built by the constructor *)

Lemma Conical_constructed (i d : value) (o : OptionsArg) (w w1 : World)
    (t : list call) (this : Experiment) :
  Conical i d o w = (inr this, w1, t) -> constructed this.
Proof.
  unfold Conical. destruct i; try (unfold throw; congruence).
  destruct (invalid_name (VString s)); [unfold throw; congruence|].
  unfold bind. destruct (assignId _ w) as [[[e|a] w2] t2]; [congruence|].
  unfold ret. intros H. injection H as <- _ _. repeat split.
Qed.

Lemma addVariant_constructed (i : value) (a : VariantArg) (cb : option Action)
    (this this1 : Experiment) :
  addVariant i a cb this = inr this1 -> constructed this -> constructed this1.
Proof.
  unfold addVariant. destruct i; try congruence.
  destruct (invalid_name (VString s)); [congruence|].
  destruct a; try congruence; intros H; injection H as <-; exact (fun c => c).
Qed.

Lemma on_constructed (ev : value) (cb : option Handler)
    (this this1 : Experiment) :
  on ev cb this = inr this1 -> constructed this -> constructed this1.
Proof.
  unfold on. destruct ev; try congruence.
  destruct (invalid_name (VString s)); [congruence|].
  destruct (registrable (handlers this) s); [congruence|].
  intros H; injection H as <-; exact (fun c => c).
Qed.

(** ** Eligibility *)

Lemma Qltb_lt (x y : Q) : Qltb x y = true <-> (x < y)%Q.
Proof.
  unfold Qltb. rewrite negb_true_iff. split.
  - intros H. apply Qnot_le_lt. intros Hle.
    apply Qle_bool_iff in Hle. congruence.
  - intros H. destruct (Qle_bool y x) eqn:E; [|reflexivity].
    apply Qle_bool_iff in E. exfalso. exact (Qlt_not_le _ _ H E).
Qed.

Lemma Qltb_ge (x y : Q) : Qltb x y = false <-> (y <= x)%Q.
Proof.
  unfold Qltb. rewrite negb_false_iff. apply Qle_bool_iff.
Qed.

Lemma min_max_clamp (x : Q) : Qmin (Qmax x 0) 1 == clamp x 0 1.
Proof.
  unfold clamp.
  destruct (Qltb x 0) eqn:E0.
  - apply Qltb_lt in E0.
    rewrite (Q.max_r x 0) by (apply Qlt_le_weak; exact E0).
    apply Q.min_l. discriminate.
  - apply Qltb_ge in E0. rewrite (Q.max_l x 0) by exact E0.
    destruct (Qltb 1 x) eqn:E1.
    + apply Qltb_lt in E1. apply Q.min_r. apply Qlt_le_weak; exact E1.
    + apply Qltb_ge in E1. apply Q.min_l. exact E1.
Qed.

Lemma clamp_cases (x : Q) :
  ((x <= 0)%Q /\ clamp x 0 1 == 0) \/
  ((0 <= x <= 1)%Q /\ clamp x 0 1 == x) \/
  ((1 <= x)%Q /\ clamp x 0 1 == 1).
Proof.
  unfold clamp. destruct (Qltb x 0) eqn:E0.
  - apply Qltb_lt in E0. left. split; [lra|reflexivity].
  - apply Qltb_ge in E0. destruct (Qltb 1 x) eqn:E1.
    + apply Qltb_lt in E1. right. right. split; [lra|reflexivity].
    + apply Qltb_ge in E1. right. left. split; [lra|reflexivity].
Qed.

(** The Numbers the eligibility test meets at the bounds of the clamp. *)
Lemma threshold_at_bounds :
  Number_mul (Number_of_Z 100000) (Number_of_Q 0) = Number_of_Z 0 /\
  Number_mul (Number_of_Z 100000) (Number_of_Q 1) = Number_of_Z 100000.
Proof. split; vm_compute; reflexivity. Qed.

(** C2. For every sample size, inside [0,1] or not, and every persisted
    user identity, the user is eligible exactly when the identity is below
    [100000 * clamp(sampleSize, 0, 1)], the product being the Number that
    [*] computes; a sample size of 0 (or less) leaves no identity from 0
    upwards eligible, a sample size of 1 (or more) makes eligible exactly
    the identities below 100000; and [segment] allocates a variant to an
    unsegmented user exactly when the user is eligible. *)
Theorem eligible_iff_below_threshold (this : Experiment) (w : World)
    (m : gmap string string) (text : string) (uid : Z) :
  constructed this ->
  localStorage w = Some m ->
  m !! "conical_uid" = Some text ->
  parseInt text = Some uid ->
  exists eligible : bool,
    canParticipate this w = (inr eligible, w, []) /\
    (eligible = true <->
     Number_lt (Number_of_Z uid)
       (Number_mul (Number_of_Z 100000)
          (Number_of_Q (clamp (sampleSize (options this)) 0 1))) = true) /\
    ((sampleSize (options this) <= 0)%Q -> (0 <= uid)%Z -> eligible = false) /\
    ((1 <= sampleSize (options this))%Q -> safe_integer uid ->
     (eligible = true <-> (uid < 100000)%Z)) /\
    (hasExpired this w = (inr false, w, []) ->
     variants this <> [] ->
     m !! experimentKey this = None ->
     segment this w
     = if eligible then participating this w else notParticipating this w).
Proof.
  intros (Hu & _ & _ & _ & Hmax) Hm Hk Hp.
  pose proof (canParticipate_available this w m Hm) as Hc.
  rewrite Hu, Hk in Hc. cbn [ToString] in Hc. rewrite Hp, Hmax in Hc.
  set (s := sampleSize (options this)) in *.
  rewrite (Number_of_Q_compat _ _ (min_max_clamp s)) in Hc.
  destruct threshold_at_bounds as [H0 H1].
  eexists. split; [exact Hc|].
  split; [reflexivity|]. split; [|split].
  - intros Hs Hz.
    assert (E : clamp s 0 1 == 0)
      by (destruct (clamp_cases s) as [[_ E]|[[? E]|[? E]]]; rewrite E; lra).
    rewrite (Number_of_Q_compat _ _ E), H0.
    now apply Number_of_Z_nonneg.
  - intros Hs Hz.
    assert (E : clamp s 0 1 == 1)
      by (destruct (clamp_cases s) as [[? E]|[[? E]|[_ E]]]; rewrite E; lra).
    rewrite (Number_of_Q_compat _ _ E), H1.
    rewrite (Number_lt_integers uid 100000 Hz) by lia.
    apply Z.ltb_lt.
  - intros He Hv Hx.
    apply (segment_fresh this w _ He Hv (getVariant_absent this w m Hm Hx) Hc).
Qed.

(** ** Idempotence of [segment] *)

Lemma hasExpired_same_clock (this : Experiment) (w w1 : World) (b : bool) :
  now w1 = now w ->
  hasExpired this w = (inr b, w, []) ->
  hasExpired this w1 = (inr b, w1, []).
Proof.
  unfold hasExpired. intros Hn H. injection H as H. now rewrite Hn, H.
Qed.

Lemma segment_writes_variant (this : Experiment) (w : World)
    (m : gmap string string) (variant : Chosen) (w0 : World) :
  now w0 = now w ->
  hasExpired this w = (inr false, w, []) ->
  variants this <> [] ->
  let w1 :=
    with_storage
      (Some (<[experimentKey this :=
                 JSON_stringify {| sv_id := chosen_id variant |}]> m)) w0 in
  getVariant this w1 = (inr (Some {| sv_id := chosen_id variant |}), w1, []) /\
  segment this w1 = (inr tt, w1, []).
Proof.
  intros Hn He Hv w1.
  assert (Hg : getVariant this w1
               = (inr (Some {| sv_id := chosen_id variant |}), w1, [])).
  { eapply getVariant_stored; [reflexivity|]. apply lookup_insert_eq. }
  split; [exact Hg|].
  eapply segment_already; [|exact Hv|exact Hg].
  apply (hasExpired_same_clock this w w1 false); [exact Hn|exact He].
Qed.

(** C3. For an experiment that is not expired and has a variant: if an
    assignment is already persisted, [segment] returns without error and
    leaves the whole world (the store included) unchanged; and whenever a
    call of [segment] succeeds, an assignment is persisted and a second
    call succeeds and changes nothing, so that two calls leave the
    assignment one call leaves. *)
Theorem segment_idempotent (this : Experiment) (w : World) :
  hasExpired this w = (inr false, w, []) ->
  variants this <> [] ->
  (forall m o,
      localStorage w = Some m ->
      m !! experimentKey this = Some (JSON_stringify o) ->
      segment this w = (inr tt, w, [])) /\
  (forall w1 t1,
      segment this w = (inr tt, w1, t1) ->
      (exists o, getVariant this w1 = (inr (Some o), w1, [])) /\
      segment this w1 = (inr tt, w1, [])).
Proof.
  intros He Hv. split.
  - intros m o Hm Hk.
    apply (segment_already this w o He Hv (getVariant_stored this w m Hm o Hk)).
  - intros w1 t1 Hs.
    destruct (getVariant_pure this w) as [[e|[o|]] Hg].
    + rewrite (segment_failed_read this w e He Hv Hg) in Hs. discriminate.
    + rewrite (segment_already this w o He Hv Hg) in Hs.
      injection Hs as <- <-. split; [exists o; exact Hg|].
      apply (segment_already this w o He Hv Hg).
    + destruct (localStorage w) as [m|] eqn:Hm;
        [|rewrite (getVariant_unavailable this w Hm) in Hg; discriminate].
      pose proof (canParticipate_available this w m Hm) as Hc.
      rewrite (segment_fresh this w _ He Hv Hg Hc) in Hs.
      destruct (match parseInt _ with Some _ => _ | None => _ end).
      * rewrite (participating_available this w m Hm) in Hs.
        injection Hs as <- <-.
        destruct (segment_writes_variant this w m
                    (allocate_from (variants this) 0 (random w (draws w)))
                    (drawn w) eq_refl He Hv) as [Hg1 Hs1].
        split; [eexists; exact Hg1|exact Hs1].
      * unfold notParticipating in Hs.
        rewrite (setVariant_available this w m Hm) in Hs.
        injection Hs as <- <-.
        destruct (segment_writes_variant this w m
                    (Sentinel "not-participating") w eq_refl He Hv)
          as [Hg1 Hs1].
        split; [eexists; exact Hg1|exact Hs1].
Qed.

Lemma segment_idempotent_witness :
  let this := test_experiment 1 [variant_A] in
  let w := test_world 0.347 uid_store in
  let w0 := test_world 0.347 assigned_store in
  let w1 :=
    with_storage
      (Some (<["experiment_test" :=
                 JSON_stringify {| sv_id := "no-chosen-variant" |}]> uid_store))
      (drawn w) in
  segment this w0 = (inr tt, w0, []) /\
  segment this w = (inr tt, w1, []) /\
  (exists o, getVariant this w1 = (inr (Some o), w1, [])) /\
  segment this w1 = (inr tt, w1, []).
Proof.
  cbv zeta. split; [|split].
  - apply (proj1 (segment_idempotent (test_experiment 1 [variant_A])
                    (test_world 0.347 assigned_store) eq_refl
                    ltac:(discriminate))
             assigned_store {| sv_id := "variant-A" |});
      reflexivity.
  - reflexivity.
  - apply (proj2 (segment_idempotent (test_experiment 1 [variant_A])
                    (test_world 0.347 uid_store) eq_refl
                    ltac:(discriminate)) _ []).
    reflexivity.
Defined.

Lemma eligible_iff_below_threshold_witness :
  exists eligible : bool,
    canParticipate (test_experiment 0.2 [variant_A]) (test_world 0.347 uid_store)
    = (inr eligible, test_world 0.347 uid_store, []) /\
    (eligible = true <->
     Number_lt (Number_of_Z 34702)
       (Number_mul (Number_of_Z 100000) (Number_of_Q (clamp 0.2 0 1))) = true) /\
    ((0.2 <= 0)%Q -> (0 <= 34702)%Z -> eligible = false) /\
    ((1 <= 0.2)%Q -> safe_integer 34702 ->
     (eligible = true <-> (34702 < 100000)%Z)) /\
    (hasExpired (test_experiment 0.2 [variant_A]) (test_world 0.347 uid_store)
     = (inr false, test_world 0.347 uid_store, []) ->
     [variant_A] <> [] ->
     uid_store !! "experiment_test" = None ->
     segment (test_experiment 0.2 [variant_A]) (test_world 0.347 uid_store)
     = if eligible
       then participating (test_experiment 0.2 [variant_A])
              (test_world 0.347 uid_store)
       else notParticipating (test_experiment 0.2 [variant_A])
              (test_world 0.347 uid_store)).
Proof.
  apply (eligible_iff_below_threshold (test_experiment 0.2 [variant_A])
           (test_world 0.347 uid_store) uid_store "34702" 34702);
    [repeat split | reflexivity..].
Defined.

(** The scenario of the test suite: sample size 0.2, identity 34702. *)
Example not_participating_scenario :
  exists w1,
    segment (test_experiment 0.2 [variant_A]) (test_world 0.347 uid_store)
    = (inr tt, w1, []) /\
    getVariant (test_experiment 0.2 [variant_A]) w1
    = (inr (Some {| sv_id := "not-participating" |}), w1, []).
Proof. eexists. split; reflexivity. Qed.

(** The product is rounded: [100000 * 0.0007700000000000001] is the Number
    77, so the identity 77 is not eligible, and [100000 * 0.07] is the
    Number above 7000, so the identity 7000 is eligible. *)
Example eligibility_rounds_the_product :
  canParticipate (test_experiment 0.0007700000000000001 [variant_A])
    (test_world 0.347 {[ "conical_uid" := "77" ]})
  = (inr false, test_world 0.347 {[ "conical_uid" := "77" ]}, []) /\
  canParticipate (test_experiment 0.07 [variant_A])
    (test_world 0.347 {[ "conical_uid" := "7000" ]})
  = (inr true, test_world 0.347 {[ "conical_uid" := "7000" ]}, []).
Proof. split; vm_compute; reflexivity. Qed.

(** ** The user identity *)

Lemma assignId_reuses (this : Experiment) (w : World) (m : gmap string string)
    (text : string) (uid : Z) :
  localStorage w = Some m ->
  m !! uidKey this = Some text ->
  parseInt text = Some uid ->
  uid <> 0%Z ->
  assignId this w = (inr (Some uid), w, []).
Proof.
  intros Hm Hk Hp Hz. unfold assignId, bind at 1.
  rewrite (hasId_available this w m Hm), Hk. cbn [ToString].
  rewrite Hp. cbn [truthy_number].
  destruct (Z.eqb_spec uid 0) as [|_]; [contradiction|]. cbn [negb].
  rewrite (getId_available this w m Hm), Hk. cbn [ToString].
  rewrite Hp. reflexivity.
Qed.

Lemma assignId_generates (this : Experiment) (w : World)
    (m : gmap string string) :
  localStorage w = Some m ->
  truthy_number (parseInt (ToString (m !! uidKey this))) = false ->
  let n := Qfloor (random w (draws w) * inject_Z (max this)
                   + inject_Z (min this)) in
  assignId this w
  = (inr (Some n),
     with_storage (Some (<[uidKey this := Number_toString n]> m)) (drawn w), []).
Proof.
  intros Hm Hf n. unfold assignId, bind at 1.
  rewrite (hasId_available this w m Hm), Hf.
  unfold bind at 1, draw. fold (drawn w). unfold bind.
  rewrite (setId_available this (drawn w) m Hm). reflexivity.
Qed.

(** A stored identity other than 0 is read back: the constructor draws
    nothing and writes nothing. *)
Lemma Conical_reuses_identity (s : string) (d : value) (o : OptionsArg)
    (w : World) (m : gmap string string) (text : string) (uid : Z) :
  s <> "undefined" ->
  localStorage w = Some m ->
  m !! "conical_uid" = Some text ->
  parseInt text = Some uid ->
  uid <> 0%Z ->
  exists this,
    Conical (VString s) d o w = (inr this, w, []) /\
    getId this w = (inr (Some uid), w, []).
Proof.
  intros Hs Hm Hk Hp Hz. unfold Conical, invalid_name.
  cbn [strict_eq_string typeof].
  destruct (String.eqb_spec s "undefined") as [|_]; [contradiction|].
  cbn [orb negb]. change (String.eqb "string" "string") with true. cbn [negb].
  eexists. unfold bind.
  match goal with
  | |- context [assignId ?t] =>
      rewrite (assignId_reuses t w m text uid Hm Hk Hp Hz)
  end.
  split; [reflexivity|].
  rewrite (getId_available _ w m Hm). cbn [uidKey]. rewrite Hk. cbn [ToString].
  now rewrite Hp.
Qed.

(** A fresh identity that is not 0 survives a second construction. *)
Lemma Conical_twice_same_identity (s1 s2 : string) (d1 d2 : value)
    (o1 o2 : OptionsArg) (w w1 : World) (t : list call)
    (this1 : Experiment) (uid : Z) :
  s2 <> "undefined" ->
  Conical (VString s1) d1 o1 w = (inr this1, w1, t) ->
  getId this1 w1 = (inr (Some uid), w1, []) ->
  uid <> 0%Z ->
  exists this2,
    Conical (VString s2) d2 o2 w1 = (inr this2, w1, []) /\
    getId this2 w1 = (inr (Some uid), w1, []).
Proof.
  intros Hs Hc Hg Hz.
  pose proof (Conical_constructed _ _ _ _ _ _ _ Hc) as (Hu & _).
  assert (exists m1, localStorage w1 = Some m1) as [m1 Hm1].
  { destruct (localStorage w1) as [m1|] eqn:E; [eauto|].
    rewrite (getId_unavailable this1 w1 E) in Hg. discriminate. }
  rewrite (getId_available this1 w1 m1 Hm1), Hu in Hg.
  destruct (m1 !! "conical_uid") as [text|] eqn:Hk; [|discriminate].
  cbn [ToString] in Hg. injection Hg as Hp.
  apply (Conical_reuses_identity s2 d2 o2 w1 m1 text uid Hs Hm1 Hk Hp Hz).
Qed.

(** On an empty store the constructor draws once and stores the identity
    [floor(0.34702089498750865 * 100000)]; a second construction reads it
    back. *)
Example fresh_identity :
  let w := test_world 0.34702089498750865 ∅ in
  exists w1,
    Conical (VString "test") (VString "this is a test experiment") no_options w
    = (inr (test_experiment 1 []), w1, []) /\
    draws w1 = 1%nat /\
    getId (test_experiment 1 []) w1 = (inr (Some 34702%Z), w1, []) /\
    Conical (VString "other") VUndefined no_options w1
    = (inr {| id := "other"; description := VUndefined;
              options := {| sampleSize := 1; expiry := None |};
              uidKey := "conical_uid"; storagePrefix := "experiment_";
              experimentKey := "experiment_other"; min := 0; max := 100000;
              hasConverted := false; variants := []; handlers := ∅ |},
       w1, []).
Proof.
  cbv zeta.
  exists (with_storage (Some {[ "conical_uid" := "34702" ]})
            (drawn (test_world 0.34702089498750865 ∅))).
  repeat split; vm_compute; reflexivity.
Qed.

(** C4, at the identity 0.  The store holds the identity [0], which
    [getId] reads back, yet [hasId] takes it for a missing identity: the
    constructor draws a new identity (34702 for the draw of the test
    suite) and overwrites the stored one. *)
Theorem stored_identity_zero_is_regenerated :
  let w := test_world 0.34702089498750865 zero_store in
  getId (test_experiment 1 []) w = (inr (Some 0%Z), w, []) /\
  hasId (test_experiment 1 []) w = (inr false, w, []) /\
  exists w1,
    Conical (VString "test") (VString "this is a test experiment") no_options w
    = (inr (test_experiment 1 []), w1, []) /\
    draws w1 = 1%nat /\
    getItem "conical_uid" w1 = (inr (Some "34702"), w1, []) /\
    getId (test_experiment 1 []) w1 = (inr (Some 34702%Z), w1, []).
Proof.
  cbv zeta. split; [reflexivity|]. split; [reflexivity|].
  exists (with_storage (Some (<["conical_uid" := "34702"]> zero_store))
            (drawn (test_world 0.34702089498750865 zero_store))).
  repeat split; vm_compute; reflexivity.
Qed.

(** ** Running a variant *)

Lemma start_no_variants (args : list value) (this : Experiment) (w : World)
    (m : gmap string string) :
  variants this = [] ->
  localStorage w = Some m ->
  m !! experimentKey this = None ->
  start args this w = (inr tt, w, []).
Proof.
  intros Hv Hm Hk. unfold start, bind.
  rewrite (getVariant_absent this w m Hm Hk), Hv. reflexivity.
Qed.

(** C5, on the code.  With a registered variant and no persisted
    assignment, [getVariant] returns [undefined], and [start] then throws
    a [TypeError] on reading [chosenVariant.id] for the first variant;
    nothing is written and no callback is invoked. *)
Theorem start_unsegmented_throws (args : list value) (this : Experiment)
    (w : World) (m : gmap string string) :
  variants this <> [] ->
  localStorage w = Some m ->
  m !! experimentKey this = None ->
  getVariant this w = (inr None, w, []) /\
  start args this w
  = (inl (TypeError "cannot read property id of undefined"), w, []).
Proof.
  intros Hv Hm Hk.
  pose proof (getVariant_absent this w m Hm Hk) as Hg.
  split; [exact Hg|]. unfold start, bind at 1. rewrite Hg.
  destruct (variants this) as [|v vs]; [congruence|]. reflexivity.
Qed.

Lemma start_unsegmented_throws_witness :
  getVariant (test_experiment 1 [variant_A]) (test_world 0.347 uid_store)
  = (inr None, test_world 0.347 uid_store, []) /\
  start [] (test_experiment 1 [variant_A]) (test_world 0.347 uid_store)
  = (inl (TypeError "cannot read property id of undefined"),
     test_world 0.347 uid_store, []).
Proof.
  apply (start_unsegmented_throws [] (test_experiment 1 [variant_A])
           (test_world 0.347 uid_store) uid_store);
    [discriminate | reflexivity..].
Defined.

(** ** Completion *)

Lemma for_of_handler_calls (variant : option StoredVariant)
    (callbacks : list (option Handler)) (w w1 : World) (r : exn + unit)
    (t : list call) :
  for_of callbacks (fun callback => invoke HandlerCall callback variant) w
  = (r, w1, t) ->
  t `prefix_of` handler_calls variant callbacks /\
  (r = inr tt -> t = handler_calls variant callbacks).
Proof.
  revert w w1 r t. induction callbacks as [|cb cbs IH]; intros w w1 r t.
  - cbn. intros [= <- <- <-]. split; [reflexivity|reflexivity].
  - cbn [for_of]. unfold bind. destruct cb as [f|]; cbn [invoke].
    + unfold handler_calls. cbn [omap fmap option_fmap option_map].
      fold (handler_calls variant cbs).
      destruct (cb_body f variant w) as [[e|] w2].
      * intros [= <- <- <-]. split; [|discriminate].
        apply prefix_cons, prefix_nil.
      * destruct (for_of cbs _ w2) as [[r2 w3] t2] eqn:E.
        intros [= <- <- <-]. destruct (IH _ _ _ _ E) as [Hp Hr].
        split; [apply prefix_cons, Hp|].
        intros ->. cbn. f_equal. now apply Hr.
    + unfold throw. intros [= <- <- <-]. split; [apply prefix_nil|discriminate].
Qed.

(** C6. [complete] succeeds at most once per instance.  On an instance
    that has not converted, a call that reads the assignment sets
    [hasConverted] and fires the [complete] handlers, in registration
    order, each with that assignment; a call that returns leaves an
    instance that has converted; and on an instance that has converted
    every call fails with the already-complete error and changes nothing,
    neither the instance nor the world. *)
Theorem complete_at_most_once (this : Experiment) (w : World) :
  hasConverted this = false ->
  (forall a,
      getVariant this w = (inr a, w, []) ->
      exists r w1 t,
        complete this w = (converted this, (r, w1, t)) /\
        hasConverted (converted this) = true /\
        trigger this "complete" a w = (r, w1, t) /\
        t `prefix_of`
          handler_calls a (default [] (handlers this !! "complete")) /\
        (r = inr tt ->
         t = handler_calls a (default [] (handlers this !! "complete")))) /\
  (forall this1 w1 t,
      complete this w = (this1, (inr tt, w1, t)) -> hasConverted this1 = true) /\
  (forall this1 w2,
      hasConverted this1 = true ->
      complete this1 w2
      = (this1, (inl (Error "this experiment is already complete"), w2, []))).
Proof.
  intros Hc. split; [|split].
  - intros a Hg. unfold complete. rewrite Hc, Hg.
    change (trigger (converted this) "complete" a w)
      with (trigger this "complete" a w).
    destruct (trigger this "complete" a w) as [[r w1] t] eqn:E.
    exists r, w1, t. split; [reflexivity|]. split; [reflexivity|].
    split; [reflexivity|]. apply (for_of_handler_calls _ _ _ _ _ _ E).
  - intros this1 w1 t. unfold complete. rewrite Hc.
    destruct (getVariant this w) as [[[e|a] w2] t2]; [congruence|].
    destruct (trigger _ _ _ _) as [[r w3] t3]. intros [= <- _ _ _]. reflexivity.
  - intros this1 w2 H1. unfold complete. rewrite H1. reflexivity.
Qed.

Lemma complete_at_most_once_witness :
  let w := test_world 0.347 uid_store in
  (exists r w1 t,
      complete watched_experiment w = (converted watched_experiment, (r, w1, t)) /\
      hasConverted (converted watched_experiment) = true /\
      trigger watched_experiment "complete" None w = (r, w1, t) /\
      t `prefix_of`
        handler_calls None
          (default [] (handlers watched_experiment !! "complete")) /\
      (r = inr tt ->
       t = handler_calls None
             (default [] (handlers watched_experiment !! "complete")))) /\
  (forall this1 w1 t,
      complete watched_experiment w = (this1, (inr tt, w1, t)) ->
      hasConverted this1 = true) /\
  (forall this1 w2,
      hasConverted this1 = true ->
      complete this1 w2
      = (this1, (inl (Error "this experiment is already complete"), w2, []))).
Proof.
  cbv zeta.
  destruct (complete_at_most_once watched_experiment
              (test_world 0.347 uid_store) eq_refl) as (H1 & H2 & H3).
  split; [|split; [exact H2|exact H3]].
  apply (H1 None). reflexivity.
Defined.

(** The test suite: the handler is called with the assignment, and a
    second completion throws. *)
Example complete_twice :
  let w := test_world 0.347
             (<["experiment_test" := JSON_stringify {| sv_id := "variant-A" |}]>
                uid_store) in
  complete watched_experiment w
  = (converted watched_experiment,
     (inr tt, w, [HandlerCall "spy" (Some {| sv_id := "variant-A" |})])) /\
  complete (converted watched_experiment) w
  = (converted watched_experiment,
     (inl (Error "this experiment is already complete"), w, [])).
Proof. split; vm_compute; reflexivity. Qed.

(** ** Failures of [segment] *)

Lemma JSON_parse_error (text : string) (e : exn) :
  JSON_parse text = inl e -> e = OutOfModel "JSON.parse".
Proof.
  unfold JSON_parse.
  repeat match goal with
         | |- context [match ?x with _ => _ end] => destruct x
         end;
    intros H; try discriminate; injection H as <-; reflexivity.
Qed.

Lemma getVariant_error (this : Experiment) (w w1 : World) (e : exn)
    (t : list call) :
  getVariant this w = (inl e, w1, t) ->
  e = Error "localStorage is unavailable in this environment" \/
  e = OutOfModel "JSON.parse".
Proof.
  destruct (localStorage w) as [m|] eqn:Hm.
  - unfold getVariant. run_store Hm.
    destruct (truthy_string _); unfold ret; [|discriminate].
    destruct (JSON_parse _) as [e1|o] eqn:E; [|discriminate].
    unfold throw. intros [= <- _ _]. right. apply (JSON_parse_error _ _ E).
  - rewrite (getVariant_unavailable this w Hm). intros [= <- _ _]. now left.
Qed.

(** C7 as stated fails: a [segment] that fails for want of variants leaves
    the assignment that was persisted before it. *)
Lemma failed_segment_may_keep_assignment :
  ~ (forall this w e w1 t,
        segment this w = (inl e, w1, t) ->
        e = Error "this experiment has expired" \/
        e = Error "this experiment has no variants" ->
        getVariant this w1 = (inr None, w1, [])).
Proof.
  intros H.
  specialize (H (test_experiment 1 []) (test_world 0.347 assigned_store)
                (Error "this experiment has no variants")
                (test_world 0.347 assigned_store) [] eq_refl
                (or_intror eq_refl)).
  vm_compute in H. discriminate.
Qed.

(** C7, amended.  When [segment] fails because the experiment has
    expired, no assignment is persisted for the experiment after the call,
    whether or not one was before; when it fails because the experiment
    has no variants, the call has changed nothing. *)
Theorem failed_segment_store (this : Experiment) (w w1 : World) (e : exn)
    (t : list call) :
  segment this w = (inl e, w1, t) ->
  (e = Error "this experiment has expired" ->
   getVariant this w1 = (inr None, w1, [])) /\
  (e = Error "this experiment has no variants" -> w1 = w /\ t = []).
Proof.
  intros Hs.
  assert (He : exists b, hasExpired this w = (inr b, w, []))
    by (eexists; reflexivity).
  destruct He as [[|] He].
  - destruct (localStorage w) as [m|] eqn:Hm.
    + rewrite (segment_expired this w m Hm He) in Hs.
      injection Hs as <- <- <-. split; [|discriminate].
      intros _. eapply getVariant_absent; [reflexivity|].
      apply lookup_delete_eq.
    + unfold segment, bind at 1 in Hs. rewrite He in Hs.
      unfold clearVariant in Hs. revert Hs. run_store Hm.
      intros [= <- _ _]. split; discriminate.
  - destruct (variants this) as [|v vs] eqn:Hv.
    + rewrite (segment_no_variants this w He Hv) in Hs.
      injection Hs as <- <- <-. split; [discriminate|]. intros _. now split.
    + assert (Hne : variants this <> []) by (rewrite Hv; discriminate).
      destruct (getVariant_pure this w) as [[e1|[o|]] Hg].
      * rewrite (segment_failed_read this w e1 He Hne Hg) in Hs.
        injection Hs as <- _ _.
        destruct (getVariant_error _ _ _ _ _ Hg) as [-> | ->];
          split; discriminate.
      * rewrite (segment_already this w o He Hne Hg) in Hs. discriminate.
      * destruct (localStorage w) as [m|] eqn:Hm;
          [|rewrite (getVariant_unavailable this w Hm) in Hg; discriminate].
        rewrite (segment_fresh this w _ He Hne Hg
                   (canParticipate_available this w m Hm)) in Hs.
        destruct (match parseInt _ with Some _ => _ | None => _ end).
        -- rewrite (participating_available this w m Hm) in Hs. discriminate.
        -- unfold notParticipating in Hs.
           rewrite (setVariant_available this w m Hm) in Hs. discriminate.
Qed.

(** ** The persisted record *)

(** C8 as stated fails: the member of the stored object is named [id],
    not [variantId]. *)
Lemma stored_record_is_not_variantId :
  ~ (forall this w m variant,
        constructed this ->
        localStorage w = Some m ->
        exists m1,
          setVariant this variant w = (inr tt, with_storage (Some m1) w, []) /\
          m1 !! ("experiment_" +:+ id this)
          = Some (spec_assignment_text (chosen_id variant))).
Proof.
  intros H.
  destruct (H (test_experiment 1 [variant_A; variant_B])
              (test_world 0.347 uid_store) uid_store (Registered variant_B))
    as (m1 & Hs & Hk); [repeat split|reflexivity|].
  rewrite (setVariant_available (test_experiment 1 [variant_A; variant_B])
             (test_world 0.347 uid_store) uid_store eq_refl) in Hs.
  injection Hs as <-. vm_compute in Hk. discriminate.
Qed.

(** C8, amended.  For every experiment id and every variant or sentinel
    that [segment] chooses, the assignment is stored under the key
    ["experiment_" + id] and its value is the JSON text of the object
    [{ id: <string> }] holding the identifier of the chosen variant; no
    other key is written. *)
Theorem assignment_key_and_record (this : Experiment) (w : World)
    (m : gmap string string) :
  constructed this ->
  localStorage w = Some m ->
  (forall variant,
      setVariant this variant w
      = (inr tt,
         with_storage
           (Some (<["experiment_" +:+ id this :=
                      assignment_text (chosen_id variant)]> m)) w,
         [])) /\
  (hasExpired this w = (inr false, w, []) ->
   variants this <> [] ->
   m !! ("experiment_" +:+ id this) = None ->
   exists variant w0 w1,
     segment this w = (inr tt, w1, []) /\
     w1 = with_storage
            (Some (<["experiment_" +:+ id this :=
                       assignment_text (chosen_id variant)]> m)) w0 /\
     JSON_parse (assignment_text (chosen_id variant))
     = inr {| sv_id := chosen_id variant |} /\
     (variant = Sentinel "not-participating" \/
      selected (variants this) (random w (draws w)) variant)).
Proof.
  intros (_ & _ & Hkey & _) Hm. split.
  - intros variant. rewrite (setVariant_available this w m Hm), Hkey.
    reflexivity.
  - rewrite <- Hkey. intros He Hv Hk.
    rewrite (segment_fresh this w _ He Hv (getVariant_absent this w m Hm Hk)
               (canParticipate_available this w m Hm)).
    destruct (match parseInt _ with Some _ => _ | None => _ end).
    + rewrite (participating_available this w m Hm).
      eexists _, _, _. split; [reflexivity|]. split; [reflexivity|].
      split; [apply (JSON_parse_stringify {| sv_id := _ |})|].
      right. apply allocate_from_selected.
    + unfold notParticipating. rewrite (setVariant_available this w m Hm).
      eexists _, _, _. split; [reflexivity|]. split; [reflexivity|].
      split; [apply (JSON_parse_stringify {| sv_id := _ |})|].
      left. reflexivity.
Qed.

Lemma assignment_key_and_record_witness :
  let this := test_experiment 1 [variant_A; variant_B] in
  let w := test_world 0.347 uid_store in
  (forall variant,
      setVariant this variant w
      = (inr tt,
         with_storage
           (Some (<["experiment_" +:+ "test" :=
                      assignment_text (chosen_id variant)]> uid_store)) w,
         [])) /\
  (exists variant w0 w1,
      segment this w = (inr tt, w1, []) /\
      w1 = with_storage
             (Some (<["experiment_" +:+ "test" :=
                        assignment_text (chosen_id variant)]> uid_store)) w0 /\
      JSON_parse (assignment_text (chosen_id variant))
      = inr {| sv_id := chosen_id variant |} /\
      (variant = Sentinel "not-participating" \/
       selected [variant_A; variant_B] 0.347 variant)).
Proof.
  cbv zeta.
  destruct (assignment_key_and_record (test_experiment 1 [variant_A; variant_B])
              (test_world 0.347 uid_store) uid_store) as [H1 H2];
    [repeat split | reflexivity |].
  split; [exact H1|].
  apply H2; [reflexivity | discriminate | reflexivity].
Defined.

(** ** Validation of the experiment id *)

Lemma Conical_not_a_string (i d : value) (o : OptionsArg) (w : World) :
  (forall s, i <> VString s) ->
  Conical i d o w = (inl (Error "experiment id is required"), w, []).
Proof.
  intros H. destruct i; try reflexivity. now destruct (H s).
Qed.

Lemma assignId_succeeds (this : Experiment) (w : World)
    (m : gmap string string) :
  localStorage w = Some m ->
  exists n w1, assignId this w = (inr n, w1, []).
Proof.
  intros Hm.
  destruct (truthy_number (parseInt (ToString (m !! uidKey this)))) eqn:E.
  - destruct (m !! uidKey this) as [text|] eqn:Hk; [|discriminate].
    cbn [ToString] in E.
    destruct (parseInt text) as [uid|] eqn:Hp; [|discriminate].
    assert (Hz : uid <> 0%Z) by (intros ->; discriminate).
    eexists _, _. apply (assignId_reuses this w m text uid Hm Hk Hp Hz).
  - eexists _, _. apply (assignId_generates this w m Hm E).
Qed.

Lemma Conical_valid_string (s : string) (d : value) (o : OptionsArg)
    (w : World) (m : gmap string string) :
  s <> "undefined" ->
  localStorage w = Some m ->
  exists this w1,
    Conical (VString s) d o w = (inr this, w1, []) /\ id this = s.
Proof.
  intros Hs Hm. unfold Conical, invalid_name.
  cbn [strict_eq_string typeof].
  destruct (String.eqb_spec s "undefined") as [|_]; [contradiction|].
  cbn [orb negb]. change (String.eqb "string" "string") with true. cbn [negb].
  unfold bind.
  match goal with
  | |- context [assignId ?t] =>
      destruct (assignId_succeeds t w m Hm) as (n & w1 & ->)
  end.
  eexists _, _. split; reflexivity.
Qed.

(** C9 as stated fails: the empty string is not a non-empty string, yet
    the constructor accepts it. *)
Lemma empty_id_is_accepted :
  ~ (forall i d o w m,
        localStorage w = Some m ->
        ((exists w1 t,
             Conical i d o w = (inl (Error "experiment id is required"), w1, t))
         <-> ~ (exists s, i = VString s /\ s <> EmptyString))).
Proof.
  intros H.
  destruct (H (VString EmptyString) VUndefined no_options
              (test_world 0.347 uid_store) uid_store eq_refl) as [_ H2].
  destruct H2 as (w1 & t & Hc).
  - intros (s & [= <-] & Hs). now apply Hs.
  - vm_compute in Hc. discriminate.
Qed.

(** C9, amended.  Construction fails with the id-required error whenever
    the supplied id is not a string; for every string id other than the
    literal ["undefined"], the empty string included, construction
    succeeds when the store is available, and the experiment carries that
    id. *)
Theorem construction_validates_id (i d : value) (o : OptionsArg) (w : World) :
  ((forall s, i <> VString s) ->
   Conical i d o w = (inl (Error "experiment id is required"), w, [])) /\
  (forall s m,
      i = VString s ->
      s <> "undefined" ->
      localStorage w = Some m ->
      exists this w1, Conical i d o w = (inr this, w1, []) /\ id this = s).
Proof.
  split.
  - apply Conical_not_a_string.
  - intros s m -> Hs Hm. apply (Conical_valid_string s d o w m Hs Hm).
Qed.

Lemma construction_validates_id_witness :
  let w := test_world 0.347 uid_store in
  Conical VNull VUndefined no_options w
  = (inl (Error "experiment id is required"), w, []) /\
  exists this w1,
    Conical (VString "test") VUndefined no_options w = (inr this, w1, []) /\
    id this = "test".
Proof.
  cbv zeta. split.
  - apply (proj1 (construction_validates_id VNull VUndefined no_options
                    (test_world 0.347 uid_store))).
    intros s. discriminate.
  - apply (proj2 (construction_validates_id (VString "test") VUndefined
                    no_options (test_world 0.347 uid_store))
             "test" uid_store);
      [reflexivity | discriminate | reflexivity].
Defined.

(** The constructor rejects the string ["undefined"] and values that are
    not strings, and accepts the empty string. *)
Example construction_examples :
  let w := test_world 0.347 uid_store in
  Conical (VString "undefined") VUndefined no_options w
  = (inl (Error "experiment id is required"), w, []) /\
  Conical VUndefined VUndefined no_options w
  = (inl (Error "experiment id is required"), w, []) /\
  exists this,
    Conical (VString EmptyString) VUndefined no_options w = (inr this, w, []) /\
    id this = EmptyString.
Proof.
  cbv zeta. split; [reflexivity|]. split; [reflexivity|].
  eexists. split; vm_compute; reflexivity.
Qed.

Lemma failed_segment_store_witness :
  let w := test_world 0.347 assigned_store in
  let w1 := with_storage (Some (delete "experiment_test" assigned_store)) w in
  segment expired_experiment w
  = (inl (Error "this experiment has expired"), w1, []) /\
  (Error "this experiment has expired" = Error "this experiment has expired" ->
   getVariant expired_experiment w1 = (inr None, w1, [])) /\
  (Error "this experiment has expired" = Error "this experiment has no variants" ->
   w1 = w /\ @nil call = []).
Proof.
  cbv zeta.
  assert (H : segment expired_experiment (test_world 0.347 assigned_store)
              = (inl (Error "this experiment has expired"),
                 with_storage (Some (delete "experiment_test" assigned_store))
                   (test_world 0.347 assigned_store), []))
    by reflexivity.
  split; [exact H|].
  exact (failed_segment_store expired_experiment _ _ _ _ H).
Defined.

(** ** Weights *)

(** C10. A call [addVariant(id, { weight: 0 }, action)] with a valid id
    stores the variant with the weight 0.5; and no call of [addVariant]
    stores a variant whose weight is zero. *)
Theorem zero_weight_becomes_default (this : Experiment) (s : string)
    (action : option Action) (zero : Q) :
  s <> "undefined" ->
  zero == 0 ->
  addVariant (VString s) (ArgObject (Some zero)) action this
  = inr (push_variant
           {| v_id := s; v_options := {| weight := 0.5 |};
              v_callback := action |} this) /\
  (forall i options cb this1,
      addVariant i options cb this = inr this1 ->
      exists variant,
        variants this1 = variants this ++ [variant] /\
        ~ weight (v_options variant) == 0).
Proof.
  intros Hs Hz. split.
  - unfold addVariant, invalid_name. cbn [strict_eq_string typeof].
    destruct (String.eqb_spec s "undefined") as [|_]; [contradiction|].
    cbn [orb negb]. change (String.eqb "string" "string") with true. cbn [negb].
    rewrite (truthy_Q_zero zero Hz). reflexivity.
  - intros i options cb this1. unfold addVariant.
    destruct i as [| | | |name| |]; try discriminate.
    destruct (invalid_name (VString name)); [discriminate|].
    assert (Hd : ~ 0.5 == 0) by (intros H; discriminate H).
    assert (Hw : forall q, ~ (if truthy_Q q then q else 0.5) == 0).
    { intros q. destruct (truthy_Q q) eqn:E; [|exact Hd].
      now apply truthy_Q_nonzero. }
    destruct options as [[q|]|f| |]; intros [= <-];
      eexists; (split; [reflexivity|]); cbn [v_options weight];
      first [apply Hw | exact Hd].
Qed.

Lemma zero_weight_becomes_default_witness :
  addVariant (VString "variant-A") (ArgObject (Some 0%Q)) (Some (noop "A"))
    (test_experiment 1 [])
  = inr (push_variant
           {| v_id := "variant-A"; v_options := {| weight := 0.5 |};
              v_callback := Some (noop "A") |} (test_experiment 1 [])) /\
  (forall i options cb this1,
      addVariant i options cb (test_experiment 1 []) = inr this1 ->
      exists variant,
        variants this1 = variants (test_experiment 1 []) ++ [variant] /\
        ~ weight (v_options variant) == 0).
Proof.
  apply (zero_weight_becomes_default (test_experiment 1 []) "variant-A"
           (Some (noop "A")) 0%Q); [discriminate | reflexivity].
Defined.

(** The registrations of the test suite. *)
Example addVariant_examples :
  addVariant (VString "variant") (ArgFunction (noop "spy")) None
    (test_experiment 1 [])
  = inr (test_experiment 1
           [{| v_id := "variant"; v_options := {| weight := 0.5 |};
               v_callback := Some (noop "spy") |}]) /\
  addVariant (VString "variant-A") (ArgObject (Some 0.3%Q)) (Some (noop "A"))
    (test_experiment 1 [])
  = inr (test_experiment 1 [variant_A]) /\
  addVariant VUndefined ArgUndefined None (test_experiment 1 [])
  = inl (Error "variant id is required").
Proof. repeat split. Qed.

(** * Further properties of [src/conical.js] *)

(** ** Runs *)

Lemma bind_assoc {A B C : Type} (m : M A) (f : A -> M B) (g : B -> M C)
    (w : World) :
  bind (bind m f) g w = bind m (fun a => bind (f a) g) w.
Proof.
  unfold bind. destruct (m w) as [[[e|a] w1] t1]; [reflexivity|].
  destruct (f a w1) as [[[e|b] w2] t2]; [reflexivity|].
  destruct (g b w2) as [[r w3] t3]. now rewrite app_assoc.
Qed.

Lemma bind_ret_l {A B : Type} (a : A) (k : A -> M B) (w : World) :
  bind (ret a) k w = k a w.
Proof. unfold bind, ret. now destruct (k a w) as [[r w1] t1]. Qed.

Lemma bind_ext {A B : Type} (m : M A) (f g : A -> M B) (w : World) :
  (forall a w1, f a w1 = g a w1) -> bind m f w = bind m g w.
Proof.
  intros H. unfold bind. destruct (m w) as [[[e|a] w1] t1]; [reflexivity|].
  now rewrite H.
Qed.

Lemma for_of_app {A : Type} (xs ys : list A) (body : A -> M unit) (w : World) :
  for_of (xs ++ ys) body w
  = bind (for_of xs body) (fun _ => for_of ys body) w.
Proof.
  revert w. induction xs as [|x xs IH]; intros w.
  - cbn [app for_of]. now rewrite bind_ret_l.
  - cbn [app for_of]. rewrite bind_assoc. apply bind_ext.
    intros _ w1. apply IH.
Qed.

Lemma for_of_observers (variant : option StoredVariant)
    (callbacks : list (option Handler)) (w : World) :
  observers callbacks ->
  for_of callbacks (fun callback => invoke HandlerCall callback variant) w
  = (inr tt, w, handler_calls variant callbacks).
Proof.
  induction 1 as [|cb cbs (f & -> & Hf) _ IH]; [reflexivity|].
  cbn [for_of]. unfold bind. cbn [invoke]. rewrite Hf, IH. reflexivity.
Qed.

Lemma trigger_observers (this : Experiment) (event : string)
    (variant : option StoredVariant) (w : World) :
  observers (default [] (handlers this !! event)) ->
  trigger this event variant w
  = (inr tt, w, handler_calls variant (default [] (handlers this !! event))).
Proof. intros H. unfold trigger. now apply for_of_observers. Qed.

(** ** The identity and the stored variant *)

Lemma with_storage_same (w : World) (m : gmap string string) :
  localStorage w = Some m -> with_storage (Some m) w = w.
Proof. destruct w as [s n r d]. cbn. now intros ->. Qed.




(** X2. Whatever the characters of a variant's id (quotes, backslashes
    and control characters included), once [setVariant] has stored it
    [getVariant] returns the object holding exactly that id and
    [isParticipating] answers true; only the experiment's own key is
    written. *)
Theorem stored_variant_reads_back (this : Experiment) (w : World)
    (m : gmap string string) (variant : Chosen) :
  localStorage w = Some m ->
  exists w1 m1,
    setVariant this variant w = (inr tt, w1, []) /\
    localStorage w1 = Some m1 /\
    (forall k, k <> experimentKey this -> m1 !! k = m !! k) /\
    getVariant this w1 = (inr (Some {| sv_id := chosen_id variant |}), w1, []) /\
    isParticipating this w1 = (inr true, w1, []).
Proof.
  intros Hm. rewrite (setVariant_available this w m Hm).
  eexists _, _. split; [reflexivity|]. split; [reflexivity|].
  split; [intros k Hk; now apply lookup_insert_ne|].
  assert (Hg : forall w1,
             localStorage w1
             = Some (<[experimentKey this :=
                         JSON_stringify {| sv_id := chosen_id variant |}]> m) ->
             getVariant this w1
             = (inr (Some {| sv_id := chosen_id variant |}), w1, [])).
  { intros w1 H1. eapply getVariant_stored; [exact H1|]. apply lookup_insert_eq. }
  split; [now apply Hg|].
  unfold isParticipating, bind. rewrite Hg by reflexivity. reflexivity.
Qed.

Lemma stored_variant_reads_back_witness :
  exists w1 m1,
    setVariant (test_experiment 1 [])
      (Sentinel (String dquote (String backslash (String (ascii_of_N 7) "x"))))
      (test_world 0.347 uid_store) = (inr tt, w1, []) /\
    localStorage w1 = Some m1 /\
    (forall k, k <> "experiment_test" -> m1 !! k = uid_store !! k) /\
    getVariant (test_experiment 1 []) w1
    = (inr (Some {| sv_id :=
                      String dquote
                        (String backslash (String (ascii_of_N 7) "x")) |}),
       w1, []) /\
    isParticipating (test_experiment 1 []) w1 = (inr true, w1, []).
Proof.
  apply (stored_variant_reads_back (test_experiment 1 [])
           (test_world 0.347 uid_store) uid_store
           (Sentinel (String dquote (String backslash (String (ascii_of_N 7) "x"))))).
  reflexivity.
Defined.

(** X3. [clearVariant] removes the experiment's assignment and nothing
    else: afterwards [getVariant] returns [undefined], every other key
    keeps its value, and clearing an assignment that [setVariant] has just
    written to a store that had none restores the world exactly. *)
Theorem clearVariant_forgets (this : Experiment) (w : World)
    (m : gmap string string) :
  localStorage w = Some m ->
  (exists w1 m1,
      clearVariant this w = (inr tt, w1, []) /\
      localStorage w1 = Some m1 /\
      (forall k, k <> experimentKey this -> m1 !! k = m !! k) /\
      getVariant this w1 = (inr None, w1, [])) /\
  (forall variant,
      m !! experimentKey this = None ->
      (let* _ := setVariant this variant in clearVariant this) w
      = (inr tt, w, [])).
Proof.
  intros Hm. split.
  - rewrite (clearVariant_available this w m Hm).
    eexists _, _. split; [reflexivity|]. split; [reflexivity|].
    split; [intros k Hk; now apply lookup_delete_ne|].
    eapply getVariant_absent; [reflexivity|]. apply lookup_delete_eq.
  - intros variant Hk. unfold bind.
    rewrite (setVariant_available this w m Hm).
    erewrite clearVariant_available by reflexivity.
    rewrite delete_insert_eq, delete_id by exact Hk.
    cbn [app]. f_equal. f_equal. unfold with_storage. cbn.
    destruct w as [s n r d]. cbn in *. now rewrite Hm.
Qed.

Lemma clearVariant_forgets_witness :
  (exists w1 m1,
      clearVariant (test_experiment 1 []) (test_world 0.347 assigned_store)
      = (inr tt, w1, []) /\
      localStorage w1 = Some m1 /\
      (forall k, k <> "experiment_test" -> m1 !! k = assigned_store !! k) /\
      getVariant (test_experiment 1 []) w1 = (inr None, w1, [])) /\
  (let* _ := setVariant (test_experiment 1 []) (Registered variant_A) in
   clearVariant (test_experiment 1 [])) (test_world 0.347 uid_store)
  = (inr tt, test_world 0.347 uid_store, []).
Proof.
  split.
  - apply (proj1 (clearVariant_forgets (test_experiment 1 [])
                    (test_world 0.347 assigned_store) assigned_store eq_refl)).
  - apply (proj2 (clearVariant_forgets (test_experiment 1 [])
                    (test_world 0.347 uid_store) uid_store eq_refl)
             (Registered variant_A)).
    reflexivity.
Defined.

(** ** An environment without [localStorage] *)

Lemma getId_then_unavailable (this : Experiment) (w : World) :
  localStorage w = None ->
  assignId this w = (inl storage_unavailable, w, []).
Proof.
  intros Hm. unfold assignId, hasId, bind.
  rewrite (getId_unavailable this w Hm). reflexivity.
Qed.

(** X4. Where [window.localStorage] is undefined every operation that
    reaches the store throws the storage error and changes nothing: the
    constructor (for a valid id, without drawing an identity), [segment]
    once its own checks have passed, [start], and [complete], which then
    leaves [hasConverted] false.  An expired experiment reports the storage
    error, not its expiry, because the stale assignment is cleared before
    the expiry error is thrown; an experiment without variants that has
    not expired still reports that it has no variants. *)
Theorem unavailable_storage_fails (w : World) :
  localStorage w = None ->
  (forall s d o,
      s <> "undefined" ->
      Conical (VString s) d o w = (inl storage_unavailable, w, [])) /\
  (forall this,
      hasExpired this w = (inr true, w, []) ->
      segment this w = (inl storage_unavailable, w, [])) /\
  (forall this,
      hasExpired this w = (inr false, w, []) ->
      variants this = [] ->
      segment this w = (inl (Error "this experiment has no variants"), w, [])) /\
  (forall this,
      hasExpired this w = (inr false, w, []) ->
      variants this <> [] ->
      segment this w = (inl storage_unavailable, w, [])) /\
  (forall this args, start args this w = (inl storage_unavailable, w, [])) /\
  (forall this,
      hasConverted this = false ->
      complete this w = (this, (inl storage_unavailable, w, []))).
Proof.
  intros Hm. repeat split.
  - intros s d o Hs. unfold Conical, invalid_name.
    cbn [strict_eq_string typeof].
    destruct (String.eqb_spec s "undefined") as [|_]; [contradiction|].
    cbn [orb negb]. change (String.eqb "string" "string") with true.
    cbn [negb]. unfold bind.
    match goal with
    | |- context [assignId ?t] => rewrite (getId_then_unavailable t w Hm)
    end.
    reflexivity.
  - intros this He. unfold segment, bind at 1. rewrite He.
    unfold clearVariant. run_store Hm. reflexivity.
  - intros this He Hv. now apply segment_no_variants.
  - intros this He Hv.
    apply (segment_failed_read this w _ He Hv (getVariant_unavailable this w Hm)).
  - intros this args. unfold start, bind.
    rewrite (getVariant_unavailable this w Hm). reflexivity.
  - intros this Hc. unfold complete.
    rewrite Hc, (getVariant_unavailable this w Hm). reflexivity.
Qed.

Lemma unavailable_storage_fails_witness :
  let w := storageless_world in
  Conical (VString "test") VUndefined no_options w
  = (inl storage_unavailable, w, []) /\
  segment expired_experiment w = (inl storage_unavailable, w, []) /\
  segment (test_experiment 1 []) w
  = (inl (Error "this experiment has no variants"), w, []) /\
  segment (test_experiment 1 [variant_A]) w = (inl storage_unavailable, w, []) /\
  start [] (test_experiment 1 [variant_A]) w = (inl storage_unavailable, w, []) /\
  complete (test_experiment 1 [variant_A]) w
  = (test_experiment 1 [variant_A], (inl storage_unavailable, w, [])).
Proof.
  cbv zeta.
  destruct (unavailable_storage_fails storageless_world eq_refl)
    as (H1 & H2 & H3 & H4 & H5 & H6).
  split; [apply H1; discriminate|].
  split; [apply H2; reflexivity|].
  split; [apply H3; reflexivity|].
  split; [apply H4; [reflexivity|discriminate]|].
  split; [apply H5|apply H6; reflexivity].
Defined.

(** ** Running the assigned variant *)

Lemma for_of_ext {A : Type} (xs : list A) (f g : A -> M unit) (w : World) :
  (forall x w1, f x w1 = g x w1) -> for_of xs f w = for_of xs g w.
Proof.
  intros H. revert w. induction xs as [|x xs IH]; intros w; [reflexivity|].
  cbn [for_of]. unfold bind. rewrite H.
  destruct (g x w) as [[[e|[]] w1] t1]; [reflexivity|]. now rewrite IH.
Qed.

Lemma for_of_filter {A : Type} (p : A -> bool) (xs : list A)
    (body : A -> M unit) (w : World) :
  for_of xs (fun x => if p x then body x else ret tt) w
  = for_of (List.filter p xs) body w.
Proof.
  revert w. induction xs as [|x xs IH]; intros w; [reflexivity|].
  cbn [for_of List.filter]. destruct (p x).
  - cbn [for_of]. apply bind_ext. intros _ w1. apply IH.
  - rewrite bind_ret_l. apply IH.
Qed.

(** [start] runs, for the matching variants in registration order, the
    [start] handlers and then the variant's callback. *)
Lemma start_as_matching (args : list value) (this : Experiment) (w : World)
    (o : StoredVariant) :
  getVariant this w = (inr (Some o), w, []) ->
  start args this w
  = for_of (matching (sv_id o) (variants this))
      (fun variant =>
         let* _ := trigger this "start" (Some o) in
         invoke ActionCall (v_callback variant) args) w.
Proof.
  intros Hg. unfold start, bind at 1. rewrite Hg.
  unfold matching. rewrite <- for_of_filter.
  match goal with
  | |- (let (_, _) := ?x in _) = ?y =>
      replace x with y; [now destruct y as [[r w2] t2]|]
  end.
  apply for_of_ext. intros v w1. cbn [get_id]. now rewrite bind_ret_l.
Qed.

Lemma start_observed (args : list value) (this : Experiment) (w : World)
    (o : StoredVariant) :
  getVariant this w = (inr (Some o), w, []) ->
  observers (default [] (handlers this !! "start")) ->
  Forall (fun v => exists f, v_callback v = Some f /\ observer f)
    (matching (sv_id o) (variants this)) ->
  start args this w = (inr tt, w, start_trace this o args).
Proof.
  intros Hg Hh Hv. rewrite (start_as_matching args this w o Hg).
  unfold start_trace.
  induction Hv as [|v vs (f & Hf & Hp) _ IH]; [reflexivity|].
  cbn [for_of flat_map]. unfold bind at 1. unfold bind at 1.
  rewrite (trigger_observers this "start" (Some o) w Hh), Hf.
  cbn [invoke]. rewrite Hp, IH. unfold start_calls. cbn [app].
  now rewrite <- app_assoc.
Qed.

Lemma start_unmatched (args : list value) (this : Experiment) (w : World)
    (o : StoredVariant) :
  getVariant this w = (inr (Some o), w, []) ->
  Forall (fun v => v_id v <> sv_id o) (variants this) ->
  start args this w = (inr tt, w, []).
Proof.
  intros Hg Hv. rewrite (start_as_matching args this w o Hg).
  replace (matching (sv_id o) (variants this)) with (@nil Variant);
    [reflexivity|].
  unfold matching. induction Hv as [|v vs Hne _ IH]; [reflexivity|].
  cbn [List.filter]. destruct (String.eqb_spec (v_id v) (sv_id o)); easy.
Qed.

(** X5. With an assignment persisted, [start] serves every registered
    variant whose id equals the assigned id, in registration order and
    without stopping at the first (two variants registered under one id
    both run): when the callbacks are observers it returns normally, leaves
    the world as it is, and has called, for each such variant, the [start]
    handlers with the assignment and then the variant's callback with the
    arguments of [start]. *)
Theorem start_serves_matching_variants (args : list value)
    (this : Experiment) (w : World) (o : StoredVariant) :
  getVariant this w = (inr (Some o), w, []) ->
  observers (default [] (handlers this !! "start")) ->
  Forall (fun v => exists f, v_callback v = Some f /\ observer f)
    (matching (sv_id o) (variants this)) ->
  start args this w = (inr tt, w, start_trace this o args).
Proof.
  intros Hg Hh Hv.
  apply start_observed; assumption.
Qed.

Lemma start_serves_matching_variants_witness :
  let this := test_experiment 1 [variant_A; variant_B; variant_A_again] in
  let w := test_world 0.347 assigned_store in
  start [VNumber 1] this w
  = (inr tt, w, [ActionCall "A" [VNumber 1]; ActionCall "A again" [VNumber 1]]).
Proof.
  cbv zeta.
  apply (start_serves_matching_variants [VNumber 1]
           (test_experiment 1 [variant_A; variant_B; variant_A_again])
           (test_world 0.347 assigned_store) {| sv_id := "variant-A" |}).
  - reflexivity.
  - constructor.
  - repeat constructor; eexists; (split; [reflexivity|intros a w; reflexivity]).
Defined.

(** X6. When the assigned id is the id of no registered variant (as for a
    user marked [not-participating], or when a draw reached no variant)
    [start] returns normally, changes nothing and invokes neither a
    handler nor a callback, whatever the callbacks are. *)
Theorem start_without_match_is_noop (args : list value) (this : Experiment)
    (w : World) (o : StoredVariant) :
  getVariant this w = (inr (Some o), w, []) ->
  Forall (fun v => v_id v <> sv_id o) (variants this) ->
  start args this w = (inr tt, w, []).
Proof.
  intros Hg Hv.
  apply (start_unmatched args this w o Hg Hv).
Qed.

Lemma start_without_match_is_noop_witness :
  let w :=
    test_world 0.347
      (<["experiment_test" := JSON_stringify {| sv_id := "not-participating" |}]>
         uid_store) in
  start [] (test_experiment 0.2 [variant_A; variant_B]) w = (inr tt, w, []).
Proof.
  cbv zeta.
  apply (start_without_match_is_noop []
           (test_experiment 0.2 [variant_A; variant_B]) _
           {| sv_id := "not-participating" |});
    [reflexivity | repeat constructor; discriminate].
Defined.

(** X7. When the first variant that matches the assignment was registered
    without a callback, [start] fires the [start] handlers for it and then
    throws a [TypeError]; no later variant is served. *)
Theorem start_without_callback_throws (args : list value)
    (this : Experiment) (w : World) (o : StoredVariant) (v : Variant)
    (rest : list Variant) :
  getVariant this w = (inr (Some o), w, []) ->
  observers (default [] (handlers this !! "start")) ->
  matching (sv_id o) (variants this) = v :: rest ->
  v_callback v = None ->
  start args this w
  = (inl (TypeError "callback.call is not a function"), w,
     handler_calls (Some o) (default [] (handlers this !! "start"))).
Proof.
  intros Hg Hh Hm Hc. rewrite (start_as_matching args this w o Hg), Hm.
  cbn [for_of]. unfold bind at 1. unfold bind at 1.
  rewrite (trigger_observers this "start" (Some o) w Hh), Hc.
  cbn [invoke]. unfold throw. now rewrite app_nil_r.
Qed.

Lemma start_without_callback_throws_witness :
  start [] (test_experiment 1 [variant_silent; variant_A])
    (test_world 0.347 assigned_store)
  = (inl (TypeError "callback.call is not a function"),
     test_world 0.347 assigned_store,
     handler_calls (Some {| sv_id := "variant-A" |})
       (default [] (handlers (test_experiment 1 [variant_silent; variant_A])
                      !! "start"))).
Proof.
  apply (start_without_callback_throws []
           (test_experiment 1 [variant_silent; variant_A])
           (test_world 0.347 assigned_store) {| sv_id := "variant-A" |}
           variant_silent [variant_A]);
    [reflexivity | constructor | reflexivity | reflexivity].
Defined.

(** ** Registering and triggering handlers *)

Lemma on_handlers (s : string) (cb : option Handler) (this this1 : Experiment) :
  on (VString s) cb this = inr this1 ->
  handlers this1
  = <[s := default [] (handlers this !! s) ++ [cb]]> (handlers this).
Proof.
  unfold on. destruct (invalid_name (VString s)); [discriminate|].
  destruct (registrable (handlers this) s); [discriminate|].
  now intros [= <-].
Qed.

(** X8. A handler registered with [on] runs after the handlers registered
    earlier for the same event: if those all return, the new one is called
    next, in the world they left; if one of them throws, the new one is not
    reached.  Handlers of other events are not affected. *)
Theorem on_registers_last (s : string) (cb : option Handler)
    (this this1 : Experiment) :
  on (VString s) cb this = inr this1 ->
  (forall variant w w1 t,
      trigger this s variant w = (inr tt, w1, t) ->
      trigger this1 s variant w
      = match invoke HandlerCall cb variant w1 with
        | (r, w2, t2) => (r, w2, t ++ t2)
        end) /\
  (forall variant w w1 t e,
      trigger this s variant w = (inl e, w1, t) ->
      trigger this1 s variant w = (inl e, w1, t)) /\
  (forall event variant w,
      event <> s ->
      trigger this1 event variant w = trigger this event variant w).
Proof.
  intros Hon. pose proof (on_handlers s cb this this1 Hon) as Hh.
  assert (Hs : forall variant w,
             trigger this1 s variant w
             = bind (trigger this s variant)
                 (fun _ => for_of [cb]
                             (fun callback =>
                                invoke HandlerCall callback variant)) w).
  { intros variant w. unfold trigger.
    rewrite Hh, lookup_insert_eq. cbn [default]. apply for_of_app. }
  repeat split.
  - intros variant w w1 t Ht. rewrite Hs. unfold bind at 1. rewrite Ht.
    cbn [for_of]. unfold bind.
    destruct (invoke HandlerCall cb variant w1) as [[[e|[]] w2] t2];
      [reflexivity|]. unfold ret. now rewrite app_nil_r.
  - intros variant w w1 t e Ht. rewrite Hs. unfold bind. now rewrite Ht.
  - intros event variant w Hne. unfold trigger.
    rewrite Hh. rewrite lookup_insert_ne; [reflexivity|congruence].
Qed.

Lemma on_registers_last_witness :
  let w := test_world 0.347 uid_store in
  exists this1,
    on (VString "complete") (Some (noop "second")) watched_experiment
    = inr this1 /\
    trigger this1 "complete" None w
    = (inr tt, w, [HandlerCall "spy" None] ++ [HandlerCall "second" None]) /\
    trigger this1 "start" None w = trigger watched_experiment "start" None w.
Proof.
  cbv zeta. eexists. split; [reflexivity|].
  match goal with
  | |- trigger ?t _ _ _ = _ /\ _ =>
      destruct (on_registers_last "complete" (Some (noop "second"))
                  watched_experiment t eq_refl) as (H1 & _ & H3)
  end.
  split.
  - apply (H1 None (test_world 0.347 uid_store) (test_world 0.347 uid_store)
             [HandlerCall "spy" None]).
    reflexivity.
  - apply H3. discriminate.
Defined.

(** X9. An exception thrown by a handler is not caught: [trigger] throws
    it, in the world the handler left, after the calls of the handlers
    registered before it and of the handler itself; the handlers
    registered after it are not called. *)
Theorem trigger_stops_at_throw (this : Experiment) (event : string)
    (variant : option StoredVariant) (before after : list (option Handler))
    (h : Handler) (w w2 : World) (e : exn) :
  handlers this !! event = Some (before ++ Some h :: after) ->
  observers before ->
  cb_body h variant w = (Some e, w2) ->
  trigger this event variant w
  = (inl e, w2,
     handler_calls variant before ++ [HandlerCall (cb_name h) variant]).
Proof.
  intros Hh Hb He. unfold trigger.
  replace (default [] (handlers this !! event))
    with (before ++ Some h :: after) by now rewrite Hh.
  rewrite for_of_app. unfold bind at 1.
  pose proof (for_of_observers variant before w Hb) as Hf.
  unfold Handler in *. rewrite Hf.
  cbn [for_of]. unfold bind. cbn [invoke]. now rewrite He.
Qed.

Lemma trigger_stops_at_throw_witness :
  let this :=
    {| id := "test"; description := VUndefined;
       options := {| sampleSize := 1; expiry := None |};
       uidKey := "conical_uid"; storagePrefix := "experiment_";
       experimentKey := "experiment_test"; min := 0; max := 100000;
       hasConverted := false; variants := [];
       handlers :=
         {[ "complete" :=
              [Some complete_spy; Some failing_handler; Some complete_spy] ]} |} in
  trigger this "complete" None (test_world 0.347 uid_store)
  = (inl (Error "handler failed"), test_world 0.347 uid_store,
     [HandlerCall "spy" None; HandlerCall "failing" None]).
Proof.
  cbv zeta.
  apply (trigger_stops_at_throw _ "complete" None [Some complete_spy]
           [Some complete_spy] failing_handler
           (test_world 0.347 uid_store) (test_world 0.347 uid_store)
           (Error "handler failed")).
  - reflexivity.
  - repeat constructor. eexists. split; [reflexivity|]. intros a w. reflexivity.
  - reflexivity.
Defined.

(** ** Validation of names *)

Lemma invalid_name_spec (v : value) :
  invalid_name v = false <-> exists s, v = VString s /\ s <> "undefined".
Proof.
  unfold invalid_name. destruct v; cbn [strict_eq_string typeof];
    try (split; [discriminate|intros (s & [=] & _)]).
  destruct (String.eqb_spec s "undefined") as [->|Hne]; cbn [orb].
  - split; [discriminate|]. intros (s & [= <-] & H). now destruct H.
  - split; [intros _; eauto|reflexivity].
Qed.

(** X10. [addVariant] succeeds exactly when the id is a string other than
    ["undefined"] and the second argument is not [null]; it then appends
    one variant carrying that id and keeps the variants registered before,
    in their order.  A function passed as second argument becomes the
    callback, and the third argument is then ignored. *)
Theorem addVariant_succeeds_iff (i : value) (options : VariantArg)
    (cb : option Action) (this : Experiment) :
  ((exists this1, addVariant i options cb this = inr this1) <->
   (exists s, i = VString s /\ s <> "undefined") /\ options <> ArgNull) /\
  (forall this1,
      addVariant i options cb this = inr this1 ->
      exists v,
        variants this1 = variants this ++ [v] /\ i = VString (v_id v) /\
        handlers this1 = handlers this /\
        hasConverted this1 = hasConverted this) /\
  (forall f,
      addVariant i (ArgFunction f) cb this
      = addVariant i (ArgObject None) (Some f) this).
Proof.
  split; [|split].
  - split.
    + intros [this1 H]. unfold addVariant in H.
      destruct i as [| | | |s| |]; try discriminate.
      destruct (invalid_name (VString s)) eqn:E; [discriminate|].
      apply invalid_name_spec in E. split; [exact E|].
      destruct options; try discriminate; congruence.
    + intros [(s & -> & Hs) Ho]. unfold addVariant.
      assert (E : invalid_name (VString s) = false)
        by (apply invalid_name_spec; eauto).
      rewrite E. destruct options as [[q|]|f| |]; try (eexists; reflexivity).
      congruence.
  - intros this1. unfold addVariant.
    destruct i as [| | | |s| |]; try discriminate.
    destruct (invalid_name (VString s)); [discriminate|].
    destruct options as [[q|]|f| |]; try discriminate;
      intros [= <-]; eexists; repeat split.
  - intros f. unfold addVariant. destruct i; reflexivity.
Qed.

Lemma registrable_spec (hs : gmap string (list (option Handler))) (s : string) :
  registrable hs s = inr tt <->
  hs !! s <> None \/ (s <> "__proto__" /\ Array_property s = false).
Proof.
  unfold registrable. destruct (hs !! s) as [l|].
  - split; [intros _; left; discriminate|reflexivity].
  - destruct (String.eqb_spec s "__proto__") as [->|Hne].
    + split; [discriminate|]. intros [H|[H _]]; now destruct H.
    + destruct (Array_property s).
      * split; [discriminate|]. intros [H|[_ H]]; [now destruct H|discriminate].
      * split; [intros _; right; split; [exact Hne|reflexivity]|reflexivity].
Qed.

(** X11. [this.handlers] is an Array.  For an event name other than
    [__proto__], [on] succeeds exactly when the name is a string other than
    ["undefined"] under which the Array holds a list registered earlier,
    or nothing at all: under the name of a property every Array has
    ([length], [push], [constructor], ...) and with no list registered,
    [on] throws a [TypeError], since what it finds there has no [push].  A
    call that succeeds changes nothing but the handlers of that event:
    variants, conversion flag and the handlers of every other event stay
    as they were. *)
Theorem on_succeeds_iff (event : value) (cb : option Handler)
    (this : Experiment) :
  (event <> VString "__proto__" ->
   ((exists this1, on event cb this = inr this1) <->
    exists s, event = VString s /\ s <> "undefined" /\
              (handlers this !! s <> None \/ Array_property s = false))) /\
  (forall s,
      event = VString s ->
      Array_property s = true ->
      handlers this !! s = None ->
      on event cb this
      = inl (TypeError "this.handlers[event].push is not a function")) /\
  (forall this1,
      on event cb this = inr this1 ->
      variants this1 = variants this /\
      hasConverted this1 = hasConverted this /\
      forall s, event <> VString s -> handlers this1 !! s = handlers this !! s).
Proof.
  split; [|split].
  - intros Hp. split.
    + intros [this1 H]. unfold on in H.
      destruct event as [| | | |s| |]; try discriminate.
      destruct (invalid_name (VString s)) eqn:E; [discriminate|].
      apply invalid_name_spec in E. destruct E as (s0 & [= <-] & Hs).
      destruct (registrable (handlers this) s) as [e|[]] eqn:R; [discriminate|].
      exists s. split; [reflexivity|]. split; [exact Hs|].
      apply registrable_spec in R. destruct R as [R|[_ R]]; [now left|now right].
    + intros (s & -> & Hs & Hr). unfold on.
      assert (E : invalid_name (VString s) = false)
        by (apply invalid_name_spec; eauto).
      assert (R : registrable (handlers this) s = inr tt).
      { apply registrable_spec. destruct Hr as [Hr|Hr]; [now left|right].
        split; [congruence|exact Hr]. }
      rewrite E, R. eexists; reflexivity.
  - intros s -> Ha Hn. unfold on, registrable. rewrite Hn.
    unfold Array_property in Ha. apply existsb_exists in Ha.
    destruct Ha as (name & Hin & Heq). apply String.eqb_eq in Heq. subst name.
    unfold Array_property_names in Hin. cbn [In] in Hin.
    repeat (destruct Hin as [<-|Hin]; [reflexivity|]). destruct Hin.
  - intros this1. unfold on.
    destruct event as [| | | |s| |]; try discriminate.
    destruct (invalid_name (VString s)); [discriminate|].
    destruct (registrable (handlers this) s); [discriminate|].
    intros [= <-]. repeat split. cbn [handlers]. intros s0 Hne.
    apply lookup_insert_ne. congruence.
Qed.

(** On a new experiment [length], [push] and [constructor] cannot be
    event names, while an array index can. *)
Example on_meets_array_properties :
  on (VString "length") (Some complete_spy) (test_experiment 1 [])
  = inl (TypeError "this.handlers[event].push is not a function") /\
  on (VString "push") (Some complete_spy) (test_experiment 1 [])
  = inl (TypeError "this.handlers[event].push is not a function") /\
  on (VString "constructor") (Some complete_spy) (test_experiment 1 [])
  = inl (TypeError "this.handlers[event].push is not a function") /\
  exists this1,
    on (VString "0") (Some complete_spy) (test_experiment 1 []) = inr this1.
Proof. repeat split. eexists. reflexivity. Qed.

Lemma addVariant_succeeds_iff_witness :
  (exists this1,
      addVariant (VString "variant") (ArgFunction (noop "spy")) None
        (test_experiment 1 []) = inr this1) /\
  ~ (exists this1,
        addVariant (VString "variant") ArgNull None (test_experiment 1 [])
        = inr this1).
Proof.
  split.
  - apply (proj1 (addVariant_succeeds_iff (VString "variant")
                    (ArgFunction (noop "spy")) None (test_experiment 1 []))).
    split; [exists "variant"; split; [reflexivity|discriminate]|discriminate].
  - intros H.
    apply (proj1 (addVariant_succeeds_iff (VString "variant") ArgNull None
                    (test_experiment 1 []))) in H.
    now destruct H as [_ H].
Defined.

Lemma on_succeeds_iff_witness :
  (exists this1,
      on (VString "complete") (Some complete_spy) (test_experiment 1 [])
      = inr this1) /\
  on (VString "push") (Some complete_spy) (test_experiment 1 [])
  = inl (TypeError "this.handlers[event].push is not a function") /\
  ~ (exists this1, on VUndefined None (test_experiment 1 []) = inr this1).
Proof.
  split; [|split].
  - apply (proj1 (on_succeeds_iff (VString "complete") (Some complete_spy)
                    (test_experiment 1 [])) ltac:(discriminate)).
    exists "complete". split; [reflexivity|]. split; [discriminate|].
    right. reflexivity.
  - apply (proj1 (proj2 (on_succeeds_iff (VString "push") (Some complete_spy)
                           (test_experiment 1 []))) "push");
      reflexivity.
  - intros H.
    apply (proj1 (on_succeeds_iff VUndefined None (test_experiment 1 []))
             ltac:(discriminate)) in H.
    destruct H as (s & H & _). discriminate H.
Defined.

(** ** Expiry *)

(** X12. An experiment without an expiry never expires, and one with an
    expiry has not expired at any time up to and including the expiry
    instant.  Once an experiment has expired it stays expired as the clock
    advances: at every later time [segment] throws the expiry error and
    leaves no assignment under the experiment's key. *)
Theorem expiry_is_permanent (this : Experiment) :
  (expiry (options this) = None ->
   forall w, hasExpired this w = (inr false, w, [])) /\
  (forall t w,
      expiry (options this) = Some t ->
      (now w <= t)%Z ->
      hasExpired this w = (inr false, w, [])) /\
  (forall w w1 m1,
      hasExpired this w = (inr true, w, []) ->
      (now w <= now w1)%Z ->
      localStorage w1 = Some m1 ->
      segment this w1
      = (inl (Error "this experiment has expired"),
         with_storage (Some (delete (experimentKey this) m1)) w1, [])).
Proof.
  repeat split.
  - intros He w. unfold hasExpired. now rewrite He.
  - intros t w He Hn. unfold hasExpired. rewrite He.
    destruct (Z.gtb_spec (now w) t); [lia|reflexivity].
  - intros w w1 m1 He Hn Hm. apply (segment_expired this w1 m1 Hm).
    unfold hasExpired in *. destruct (expiry (options this)) as [t|];
      [|discriminate].
    injection He as He.
    destruct (Z.gtb_spec (now w) t); [|discriminate].
    destruct (Z.gtb_spec (now w1) t); [reflexivity|lia].
Qed.

Lemma expiry_is_permanent_witness :
  let w := test_world 0.347 assigned_store in
  hasExpired (test_experiment 1 [variant_A]) w = (inr false, w, []) /\
  segment expired_experiment w
  = (inl (Error "this experiment has expired"),
     with_storage (Some (delete "experiment_test" assigned_store)) w, []).
Proof.
  cbv zeta. split.
  - apply (proj1 (expiry_is_permanent (test_experiment 1 [variant_A]))).
    reflexivity.
  - apply (proj2 (proj2 (expiry_is_permanent expired_experiment))
             {| localStorage := None; now := 2; random := fun _ => 0%Q;
                draws := 0 |}
             (test_world 0.347 assigned_store) assigned_store);
      [reflexivity | discriminate | reflexivity].
Defined.

(** ** What [segment] leaves alone *)

Lemma uid_key_is_not_experiment_key (s : string) :
  "conical_uid" <> "experiment_" +:+ s.
Proof. discriminate. Qed.

(** X13. On an available store [segment], whatever its outcome, invokes
    no callback, leaves the clock and the randomness source as they are,
    draws at most once, and writes no key but the experiment's own: the
    user identity in particular reads back as before. *)
Theorem segment_touches_only_its_key (this : Experiment) (w w1 : World)
    (m : gmap string string) (r : exn + unit) (t : list call) :
  constructed this ->
  localStorage w = Some m ->
  segment this w = (r, w1, t) ->
  t = [] /\
  now w1 = now w /\
  random w1 = random w /\
  (draws w1 = draws w \/ draws w1 = S (draws w)) /\
  exists m1,
    localStorage w1 = Some m1 /\
    (forall k, k <> "experiment_" +:+ id this -> m1 !! k = m !! k) /\
    getId this w1 = (inr (parseInt (ToString (m !! "conical_uid"))), w1, []).
Proof.
  intros (Hu & _ & Hkey & _) Hm Hs.
  assert (Hid : forall m1 w2,
             localStorage w2 = Some m1 ->
             (forall k, k <> "experiment_" +:+ id this -> m1 !! k = m !! k) ->
             getId this w2
             = (inr (parseInt (ToString (m !! "conical_uid"))), w2, [])).
  { intros m1 w2 H2 Hk. rewrite (getId_available this w2 m1 H2), Hu.
    now rewrite Hk by apply uid_key_is_not_experiment_key. }
  assert (Hins : forall v k,
             k <> "experiment_" +:+ id this ->
             <[experimentKey this := v]> m !! k = m !! k).
  { intros v k Hk. apply lookup_insert_ne. congruence. }
  assert (He : exists b, hasExpired this w = (inr b, w, []))
    by (eexists; reflexivity).
  destruct He as [[|] He].
  - rewrite (segment_expired this w m Hm He) in Hs.
    injection Hs as <- <- <-. repeat split; [now left|].
    assert (Hd : forall k, k <> "experiment_" +:+ id this ->
                   delete (experimentKey this) m !! k = m !! k)
      by (intros k Hk; apply lookup_delete_ne; congruence).
    eexists. split; [reflexivity|]. split; [exact Hd|].
    now apply (Hid (delete (experimentKey this) m)).
  - destruct (variants this) as [|v vs] eqn:Hv.
    + rewrite (segment_no_variants this w He Hv) in Hs.
      injection Hs as <- <- <-. repeat split; [now left|].
      exists m. split; [exact Hm|]. split; [reflexivity|].
      now apply (Hid m).
    + assert (Hne : variants this <> []) by (rewrite Hv; discriminate).
      destruct (getVariant_pure this w) as [[e1|[o|]] Hg].
      * rewrite (segment_failed_read this w e1 He Hne Hg) in Hs.
        injection Hs as <- <- <-. repeat split; [now left|].
        exists m. split; [exact Hm|]. split; [reflexivity|]. now apply (Hid m).
      * rewrite (segment_already this w o He Hne Hg) in Hs.
        injection Hs as <- <- <-. repeat split; [now left|].
        exists m. split; [exact Hm|]. split; [reflexivity|]. now apply (Hid m).
      * rewrite (segment_fresh this w _ He Hne Hg
                   (canParticipate_available this w m Hm)) in Hs.
        destruct (match parseInt _ with Some _ => _ | None => _ end).
        -- rewrite (participating_available this w m Hm) in Hs.
           injection Hs as <- <- <-. repeat split; [now right|].
           eexists. split; [reflexivity|]. split; [apply Hins|].
           eapply Hid; [reflexivity|apply Hins].
        -- unfold notParticipating in Hs.
           rewrite (setVariant_available this w m Hm) in Hs.
           injection Hs as <- <- <-. repeat split; [now left|].
           eexists. split; [reflexivity|]. split; [apply Hins|].
           eapply Hid; [reflexivity|apply Hins].
Qed.

Lemma segment_touches_only_its_key_witness :
  exists r w1 t,
    segment (test_experiment 1 [variant_A; variant_B])
      (test_world 0.347 uid_store) = (r, w1, t) /\
    t = [] /\
    now w1 = now (test_world 0.347 uid_store) /\
    random w1 = random (test_world 0.347 uid_store) /\
    (draws w1 = draws (test_world 0.347 uid_store) \/
     draws w1 = S (draws (test_world 0.347 uid_store))) /\
    exists m1,
      localStorage w1 = Some m1 /\
      (forall k, k <> "experiment_" +:+ "test" -> m1 !! k = uid_store !! k) /\
      getId (test_experiment 1 [variant_A; variant_B]) w1
      = (inr (parseInt (ToString (uid_store !! "conical_uid"))), w1, []).
Proof.
  eexists _, _, _. split; [reflexivity|].
  eapply (segment_touches_only_its_key
            (test_experiment 1 [variant_A; variant_B])
            (test_world 0.347 uid_store));
    [repeat split | reflexivity | reflexivity].
Defined.

(** ** When the draw reaches a variant *)




(** ** Completion and the store *)

(** X15. [complete] does not clear the assignment: when the [complete]
    handlers are observers, the first completion returns normally, has
    called each handler once with the assignment, and leaves the world as
    it was, so that the assignment is still read back afterwards. *)
Theorem complete_keeps_assignment (this : Experiment) (w : World)
    (a : option StoredVariant) :
  hasConverted this = false ->
  getVariant this w = (inr a, w, []) ->
  observers (default [] (handlers this !! "complete")) ->
  complete this w
  = (converted this,
     (inr tt, w, handler_calls a (default [] (handlers this !! "complete")))) /\
  getVariant (converted this) w = (inr a, w, []).
Proof.
  intros Hc Hg Ho. split; [|exact Hg].
  unfold complete. rewrite Hc, Hg.
  change (trigger (converted this) "complete" a w)
    with (trigger this "complete" a w).
  now rewrite (trigger_observers this "complete" a w Ho).
Qed.

Lemma complete_keeps_assignment_witness :
  let w := test_world 0.347 assigned_store in
  complete watched_experiment w
  = (converted watched_experiment,
     (inr tt, w,
      handler_calls (Some {| sv_id := "variant-A" |})
        (default [] (handlers watched_experiment !! "complete")))) /\
  getVariant (converted watched_experiment) w
  = (inr (Some {| sv_id := "variant-A" |}), w, []).
Proof.
  cbv zeta.
  apply (complete_keeps_assignment watched_experiment
           (test_world 0.347 assigned_store) (Some {| sv_id := "variant-A" |}));
    [reflexivity | reflexivity |].
  repeat constructor. eexists. split; [reflexivity|]. intros a w. reflexivity.
Defined.

(** ** What the constructor leaves *)




(** ** From segmentation to the run *)

(** X17. A user who is not eligible is marked [not-participating] without
    a draw, and a [start] that follows runs nothing: provided no variant is
    itself registered under the id [not-participating], [segment] followed
    by [start] returns normally and invokes neither a handler nor a
    callback. *)
Theorem ineligible_user_runs_nothing (args : list value) (this : Experiment)
    (w : World) (m : gmap string string) :
  hasExpired this w = (inr false, w, []) ->
  variants this <> [] ->
  localStorage w = Some m ->
  m !! experimentKey this = None ->
  canParticipate this w = (inr false, w, []) ->
  Forall (fun v => v_id v <> "not-participating") (variants this) ->
  exists w1,
    (let* _ := segment this in start args this) w = (inr tt, w1, []) /\
    draws w1 = draws w /\
    getVariant this w1
    = (inr (Some {| sv_id := "not-participating" |}), w1, []).
Proof.
  intros He Hv Hm Hk Hc Hn.
  pose proof (segment_fresh this w false He Hv
                (getVariant_absent this w m Hm Hk) Hc) as Hs.
  cbv iota in Hs. unfold notParticipating in Hs.
  rewrite (setVariant_available this w m Hm) in Hs.
  destruct (segment_writes_variant this w m (Sentinel "not-participating") w
              eq_refl He Hv) as [Hg _].
  eexists. unfold bind. rewrite Hs.
  rewrite (start_unmatched args this _ _ Hg Hn).
  split; [reflexivity|]. split; [reflexivity|exact Hg].
Qed.

Lemma ineligible_user_runs_nothing_witness :
  exists w1,
    (let* _ := segment (test_experiment 0.2 [variant_A]) in
     start [] (test_experiment 0.2 [variant_A])) (test_world 0.347 uid_store)
    = (inr tt, w1, []) /\
    draws w1 = draws (test_world 0.347 uid_store) /\
    getVariant (test_experiment 0.2 [variant_A]) w1
    = (inr (Some {| sv_id := "not-participating" |}), w1, []).
Proof.
  apply (ineligible_user_runs_nothing [] (test_experiment 0.2 [variant_A])
           (test_world 0.347 uid_store) uid_store);
    [reflexivity | discriminate | reflexivity | reflexivity | reflexivity |].
  repeat constructor. discriminate.
Defined.

(** X18. For an eligible user not yet segmented, [segment] followed by
    [start] runs the variant the draw selects: when that variant is the
    only one registered under its id and the callbacks are observers, the
    two calls return normally and the calls made are the [start] handlers
    with the new assignment, then that variant's callback with the
    arguments of [start].  When the draw reaches no variant, nothing
    runs (provided no variant is registered under [no-chosen-variant]). *)
Theorem eligible_user_runs_selected_variant (args : list value)
    (this : Experiment) (w : World) (m : gmap string string) :
  hasExpired this w = (inr false, w, []) ->
  variants this <> [] ->
  localStorage w = Some m ->
  m !! experimentKey this = None ->
  canParticipate this w = (inr true, w, []) ->
  observers (default [] (handlers this !! "start")) ->
  (forall v f,
      allocate_from (variants this) 0 (random w (draws w)) = Registered v ->
      matching (v_id v) (variants this) = [v] ->
      v_callback v = Some f ->
      observer f ->
      exists w1,
        (let* _ := segment this in start args this) w
        = (inr tt, w1, start_calls this {| sv_id := v_id v |} args f)) /\
  (allocate_from (variants this) 0 (random w (draws w))
   = Sentinel "no-chosen-variant" ->
   Forall (fun v => v_id v <> "no-chosen-variant") (variants this) ->
   exists w1,
     (let* _ := segment this in start args this) w = (inr tt, w1, [])).
Proof.
  intros He Hv Hm Hk Hc Ho.
  pose proof (segment_fresh this w true He Hv
                (getVariant_absent this w m Hm Hk) Hc) as Hs.
  cbv iota in Hs. rewrite (participating_available this w m Hm) in Hs.
  destruct (segment_writes_variant this w m
              (allocate_from (variants this) 0 (random w (draws w)))
              (drawn w) eq_refl He Hv) as [Hg _].
  split.
  - intros v f Ha Hu Hf Hp. rewrite Ha in Hs, Hg. cbn [chosen_id] in Hs, Hg.
    eexists. unfold bind. rewrite Hs.
    rewrite (start_observed args this _ {| sv_id := v_id v |} Hg Ho).
    + unfold start_trace. cbn [sv_id]. rewrite Hu. cbn [flat_map].
      rewrite Hf, app_nil_r. reflexivity.
    + cbn [sv_id]. rewrite Hu. repeat constructor. eauto.
  - intros Ha Hn. rewrite Ha in Hs, Hg. cbn [chosen_id] in Hs, Hg.
    eexists. unfold bind. rewrite Hs.
    rewrite (start_unmatched args this _ _ Hg Hn). reflexivity.
Qed.

Lemma eligible_user_runs_selected_variant_witness :
  (exists w1,
      (let* _ := segment (test_experiment 1 [variant_A; variant_B]) in
       start [] (test_experiment 1 [variant_A; variant_B]))
        (test_world 0.347 uid_store)
      = (inr tt, w1,
         start_calls (test_experiment 1 [variant_A; variant_B])
           {| sv_id := "variant-B" |} [] (noop "B"))) /\
  (exists w1,
      (let* _ := segment (test_experiment 1 [variant_A]) in
       start [] (test_experiment 1 [variant_A])) (test_world 0.347 uid_store)
      = (inr tt, w1, [])).
Proof.
  split.
  - apply (proj1 (eligible_user_runs_selected_variant []
                    (test_experiment 1 [variant_A; variant_B])
                    (test_world 0.347 uid_store) uid_store
                    eq_refl ltac:(discriminate) eq_refl eq_refl eq_refl
                    ltac:(constructor))
             variant_B (noop "B"));
      [reflexivity | reflexivity | reflexivity | intros a w; reflexivity].
  - apply (proj2 (eligible_user_runs_selected_variant []
                    (test_experiment 1 [variant_A])
                    (test_world 0.347 uid_store) uid_store
                    eq_refl ltac:(discriminate) eq_refl eq_refl eq_refl
                    ltac:(constructor)));
      [reflexivity | repeat constructor; discriminate].
Defined.

(** * Properties of the earlier build *)

(** ** Runs and the store *)

Lemma legacy_bind_ret_l {A B : Type} (a : A) (k : A -> Legacy.M B) (w : World) :
  Legacy.bind (Legacy.ret a) k w = k a w.
Proof.
  unfold Legacy.bind, Legacy.ret. now destruct (k a w) as [[r w1] t1].
Qed.

Lemma legacy_bind_ext {A B : Type} (m : Legacy.M A) (f g : A -> Legacy.M B)
    (w : World) :
  (forall a w1, f a w1 = g a w1) -> Legacy.bind m f w = Legacy.bind m g w.
Proof.
  intros H. unfold Legacy.bind.
  destruct (m w) as [[[e|a] w1] t1]; [reflexivity|]. now rewrite H.
Qed.

Lemma legacy_for_each_ext {A : Type} (xs : list A) (f g : A -> Legacy.M unit)
    (w : World) :
  (forall x w1, f x w1 = g x w1) ->
  Legacy.for_each xs f w = Legacy.for_each xs g w.
Proof.
  intros H. revert w. induction xs as [|x xs IH]; intros w; [reflexivity|].
  cbn [Legacy.for_each]. unfold Legacy.bind. rewrite H.
  destruct (g x w) as [[[e|[]] w1] t1]; [reflexivity|]. now rewrite IH.
Qed.

Lemma legacy_for_each_filter {A : Type} (p : A -> bool) (xs : list A)
    (body : A -> Legacy.M unit) (w : World) :
  Legacy.for_each xs (fun x => if p x then body x else Legacy.ret tt) w
  = Legacy.for_each (List.filter p xs) body w.
Proof.
  revert w. induction xs as [|x xs IH]; intros w; [reflexivity|].
  cbn [Legacy.for_each List.filter]. destruct (p x).
  - cbn [Legacy.for_each]. apply legacy_bind_ext. intros _ w1. apply IH.
  - rewrite legacy_bind_ret_l. apply IH.
Qed.

Lemma legacy_for_each_observers (arguments : Legacy.passed)
    (callbacks : list (option Legacy.Handler)) (w : World) :
  legacy_observers callbacks ->
  Legacy.for_each callbacks
    (fun callback => Legacy.invoke Legacy.HandlerCall callback arguments) w
  = (inr tt, w, legacy_handler_calls arguments callbacks).
Proof.
  induction 1 as [|cb cbs (f & -> & Hf) _ IH]; [reflexivity|].
  cbn [Legacy.for_each]. unfold Legacy.bind. cbn [Legacy.invoke].
  rewrite Hf, IH. reflexivity.
Qed.

Lemma legacy_trigger_observers (pass : list (option Legacy.Stored) -> Legacy.passed)
    (this : Legacy.Exp) (event : string) (args : list (option Legacy.Stored))
    (w : World) :
  event <> "undefined" ->
  legacy_observers (default [] (Legacy.handlers this !! event)) ->
  Legacy.trigger_with pass this (VString event) args w
  = (inr tt, w,
     legacy_handler_calls (pass args)
       (default [] (Legacy.handlers this !! event))).
Proof.
  intros Hne Ho. unfold Legacy.trigger_with.
  assert (E : invalid_name (VString event) = false)
    by (apply invalid_name_spec; eauto).
  rewrite E. now apply legacy_for_each_observers.
Qed.

Lemma legacy_JSON_stringify_text (o : Legacy.Stored) :
  Legacy.JSON_stringify o =
  ("{" +:+ QuoteJSONString "experimentId" +:+ ":" +:+ String dquote EmptyString)
  +:+ (escape_all (Legacy.experimentId o)
       +:+ String dquote
             (("," +:+ QuoteJSONString "variantId" +:+ ":"
               +:+ String dquote EmptyString)
              +:+ (escape_all (Legacy.variantId o) +:+ String dquote "}"))).
Proof.
  unfold Legacy.JSON_stringify.
  unfold QuoteJSONString at 2 4.
  rewrite !(append_cons dquote), !append_assoc.
  reflexivity.
Qed.

Lemma legacy_JSON_parse_stringify (o : Legacy.Stored) :
  Legacy.JSON_parse (Legacy.JSON_stringify o) = inr o.
Proof.
  rewrite legacy_JSON_stringify_text. unfold Legacy.JSON_parse.
  rewrite expect_prefix, read_string_escape_all.
  rewrite expect_prefix, read_string_escape_all.
  destruct o; reflexivity.
Qed.

(** Unfolds the storage primitives of the earlier build under a
    hypothesis [H] that gives the contents of the store. *)
Ltac run_legacy_store H :=
  unfold Legacy.bind, Legacy.check_Storage, Legacy.getItem, Legacy.setItem,
    Legacy.removeItem, Legacy.ret;
  repeat (rewrite H; cbv beta iota);
  cbn [app].

Section LegacyStore.
Variable this : Legacy.Exp.
Variable w : World.
Variable m : gmap string string.
Hypothesis available : localStorage w = Some m.

Lemma legacy_getId_available :
  Legacy.getId w = (inr (parseInt (ToString (m !! "conical_uid"))), w, []).
Proof. unfold Legacy.getId. run_legacy_store available. reflexivity. Qed.

Lemma legacy_setVariant_available (chosen : string) :
  Legacy.setVariant this chosen w
  = (inr tt,
     with_storage
       (Some (<[Legacy.storagePrefix this :=
                  Legacy.JSON_stringify
                    {| Legacy.experimentId := Legacy.id this;
                       Legacy.variantId := chosen |}]> m)) w,
     []).
Proof. unfold Legacy.setVariant. run_legacy_store available. reflexivity. Qed.

Lemma legacy_clearVariant_available :
  Legacy.clearVariant this w
  = (inr tt, with_storage (Some (delete (Legacy.storagePrefix this) m)) w, []).
Proof. unfold Legacy.clearVariant. run_legacy_store available. reflexivity. Qed.

Lemma legacy_getVariant_absent :
  m !! Legacy.storagePrefix this = None ->
  Legacy.getVariant this w = (inr None, w, []).
Proof.
  intros Hk. unfold Legacy.getVariant. run_legacy_store available.
  rewrite Hk. reflexivity.
Qed.

Lemma legacy_getVariant_stored (o : Legacy.Stored) :
  m !! Legacy.storagePrefix this = Some (Legacy.JSON_stringify o) ->
  Legacy.getVariant this w = (inr (Some o), w, []).
Proof.
  intros Hk. unfold Legacy.getVariant. run_legacy_store available.
  rewrite Hk. cbn [ToString].
  change (truthy_string (Some (Legacy.JSON_stringify o))) with true.
  cbv iota. rewrite legacy_JSON_parse_stringify. reflexivity.
Qed.
End LegacyStore.

(** ** Eligibility and the draw in the earlier build *)

Lemma or_default_truthy (q d : Q) :
  truthy_Q q = true -> Legacy.or_default (Some q) d = q.
Proof. intros H. unfold Legacy.or_default. now rewrite H. Qed.

Lemma or_default_falsy (q d : Q) :
  truthy_Q q = false -> Legacy.or_default (Some q) d = d.
Proof. intros H. unfold Legacy.or_default. now rewrite H. Qed.

(** X19. The earlier build does not clamp the sample size and replaces a
    falsy sample size, as 0, by 1: with a sample size that is not falsy
    the user is eligible exactly when the identity is below
    [100000 * sampleSize], the product being the Number that [*] computes,
    and with a sample size that is missing or falsy exactly the identities
    below 100000 are eligible. *)
Theorem legacy_eligibility_is_not_clamped (this : Legacy.Exp) (w : World)
    (m : gmap string string) (text : string) (uid : Z) :
  localStorage w = Some m ->
  m !! "conical_uid" = Some text ->
  parseInt text = Some uid ->
  exists eligible : bool,
    Legacy.canParticipate this w = (inr eligible, w, []) /\
    (forall q,
        Legacy.sampleSize (Legacy.options this) = Some q ->
        truthy_Q q = true ->
        (eligible = true <->
         Number_lt (Number_of_Z uid)
           (Number_mul (Number_of_Z 100000) (Number_of_Q q)) = true)) /\
    (Legacy.sampleSize (Legacy.options this) = None \/
     (exists q, Legacy.sampleSize (Legacy.options this) = Some q /\
                truthy_Q q = false) ->
     safe_integer uid ->
     (eligible = true <-> (uid < 100000)%Z)).
Proof.
  intros Hm Hk Hp. unfold Legacy.canParticipate, Legacy.bind.
  rewrite (legacy_getId_available w m Hm), Hk. cbn [ToString]. rewrite Hp.
  unfold Legacy.ret. eexists. split; [reflexivity|]. split.
  - intros q Hq Hne. rewrite Hq, (or_default_truthy q 1 Hne). reflexivity.
  - intros Hs Hz.
    assert (E : Legacy.or_default (Legacy.sampleSize (Legacy.options this)) 1
                = 1%Q).
    { destruct Hs as [-> | (q & -> & Hq)]; [reflexivity|].
      now apply or_default_falsy. }
    rewrite E. change Legacy.max with 100000%Z.
    rewrite (proj2 threshold_at_bounds).
    rewrite (Number_lt_integers uid 100000 Hz) by lia.
    apply Z.ltb_lt.
Qed.

Lemma legacy_eligibility_is_not_clamped_witness :
  exists eligible : bool,
    Legacy.canParticipate
      (legacy_experiment
         {| Legacy.sampleSize := Some 0%Q; Legacy.expiry := None;
            Legacy.variant := None |} [legacy_variant_A])
      (test_world 0.347 uid_store)
    = (inr eligible, test_world 0.347 uid_store, []) /\
    (eligible = true <-> (34702 < 100000)%Z).
Proof.
  destruct (legacy_eligibility_is_not_clamped
              (legacy_experiment
                 {| Legacy.sampleSize := Some 0%Q; Legacy.expiry := None;
                    Legacy.variant := None |} [legacy_variant_A])
              (test_world 0.347 uid_store) uid_store "34702" 34702
              eq_refl eq_refl eq_refl) as (eligible & Hc & _ & H0).
  exists eligible. split; [exact Hc|].
  apply H0; [|unfold safe_integer; lia].
  right. exists 0%Q. split; reflexivity.
Defined.

(** With the sample size 2 the identity 150000 is eligible in the earlier
    build, and not in the current one; and the product is rounded here
    too. *)
Example legacy_sample_size_examples :
  Legacy.canParticipate
    (legacy_experiment
       {| Legacy.sampleSize := Some 2%Q; Legacy.expiry := None;
          Legacy.variant := None |} [legacy_variant_A])
    (test_world 0.347 {[ "conical_uid" := "150000" ]})
  = (inr true, test_world 0.347 {[ "conical_uid" := "150000" ]}, []) /\
  canParticipate (test_experiment 2 [variant_A])
    (test_world 0.347 {[ "conical_uid" := "150000" ]})
  = (inr false, test_world 0.347 {[ "conical_uid" := "150000" ]}, []) /\
  Legacy.canParticipate
    (legacy_experiment
       {| Legacy.sampleSize := Some 0.0007700000000000001%Q;
          Legacy.expiry := None; Legacy.variant := None |} [legacy_variant_A])
    (test_world 0.347 {[ "conical_uid" := "77" ]})
  = (inr false, test_world 0.347 {[ "conical_uid" := "77" ]}, []).
Proof. repeat split; vm_compute; reflexivity. Qed.

(** X20. Defaulting a missing or zero weight to 0.5 when the variant is
    registered, as the current [addVariant] does, selects the variant the
    earlier build selects by defaulting the weight during the draw: on the
    same variants, none registered with [null] options, and for every
    draw, the two loops return the same id. *)
Theorem legacy_draw_agrees_with_current (vs : list Legacy.Variant) (r : Q) :
  Forall (fun v => Legacy.v_options v <> None) vs ->
  Legacy.allocate_from vs 0 r
  = inr (chosen_id (allocate_from (map registered_now vs) 0 r)) /\
  (forall s w cb this,
      s <> "undefined" ->
      addVariant (VString s) (ArgObject w) cb this
      = inr (push_variant
               {| v_id := s;
                  v_options := {| weight := Legacy.or_default w 0.5 |};
                  v_callback := cb |} this)).
Proof.
  intros Hv. split.
  - unfold Legacy.allocate_from, allocate_from.
    generalize (Number_of_Q 0) as acc. induction Hv as [|v vs Ho _ IH];
      intros acc; [reflexivity|].
    cbn [Legacy.allocate_loop allocate_loop map].
    destruct (Legacy.v_options v) as [o|] eqn:E; [|congruence].
    assert (Hw : weight (v_options (registered_now v))
                 = Legacy.or_default (Legacy.weight o) 0.5)
      by (unfold registered_now; cbn [v_options weight]; now rewrite E).
    rewrite Hw.
    destruct (Number_ge
                (Number_add acc
                   (Number_of_Q (Legacy.or_default (Legacy.weight o) 0.5)))
                (Number_of_Q r));
      [reflexivity|apply IH].
  - intros s w cb this Hs. unfold addVariant.
    assert (E : invalid_name (VString s) = false)
      by (apply invalid_name_spec; eauto).
    rewrite E. reflexivity.
Qed.

Lemma legacy_draw_agrees_with_current_witness :
  Legacy.allocate_from
    [legacy_variant_zero; legacy_variant_unweighted; legacy_variant_B] 0 0.6
  = inr (chosen_id
           (allocate_from
              (map registered_now
                 [legacy_variant_zero; legacy_variant_unweighted;
                  legacy_variant_B])
              0 0.6)) /\
  Legacy.allocate_from
    [legacy_variant_zero; legacy_variant_unweighted; legacy_variant_B] 0 0.6
  = inr "variant-unweighted".
Proof.
  split; [|vm_compute; reflexivity].
  apply (proj1 (legacy_draw_agrees_with_current
                  [legacy_variant_zero; legacy_variant_unweighted;
                   legacy_variant_B] 0.6
                  ltac:(repeat constructor; discriminate))).
Defined.

(** ** The record of the earlier build *)

(** X21. The earlier build stores, under the experiment's key, the JSON
    text of [{ experimentId, variantId }]; whatever the characters of the
    two ids, [getVariant] reads both back and [isParticipating] then
    answers true. *)
Theorem legacy_assignment_reads_back (this : Legacy.Exp) (w : World)
    (m : gmap string string) (chosen : string) :
  localStorage w = Some m ->
  exists w1,
    Legacy.setVariant this chosen w = (inr tt, w1, []) /\
    localStorage w1
    = Some (<[Legacy.storagePrefix this :=
                Legacy.JSON_stringify
                  {| Legacy.experimentId := Legacy.id this;
                     Legacy.variantId := chosen |}]> m) /\
    Legacy.getVariant this w1
    = (inr (Some {| Legacy.experimentId := Legacy.id this;
                    Legacy.variantId := chosen |}), w1, []) /\
    Legacy.isParticipating this w1 = (inr true, w1, []).
Proof.
  intros Hm. rewrite (legacy_setVariant_available this w m Hm).
  eexists. split; [reflexivity|]. split; [reflexivity|].
  assert (Hg : forall w1,
             localStorage w1
             = Some (<[Legacy.storagePrefix this :=
                         Legacy.JSON_stringify
                           {| Legacy.experimentId := Legacy.id this;
                              Legacy.variantId := chosen |}]> m) ->
             Legacy.getVariant this w1
             = (inr (Some {| Legacy.experimentId := Legacy.id this;
                             Legacy.variantId := chosen |}), w1, [])).
  { intros w1 H1. eapply legacy_getVariant_stored; [exact H1|].
    apply lookup_insert_eq. }
  split; [now apply Hg|].
  unfold Legacy.isParticipating, Legacy.bind. rewrite Hg by reflexivity.
  reflexivity.
Qed.

Lemma legacy_assignment_reads_back_witness :
  exists w1,
    Legacy.setVariant (legacy_experiment Legacy.no_options [])
      "variant-B" (test_world 0.347 uid_store) = (inr tt, w1, []) /\
    localStorage w1
    = Some (<["experiment_test" :=
                Legacy.JSON_stringify
                  {| Legacy.experimentId := "test";
                     Legacy.variantId := "variant-B" |}]> uid_store) /\
    Legacy.getVariant (legacy_experiment Legacy.no_options []) w1
    = (inr (Some {| Legacy.experimentId := "test";
                    Legacy.variantId := "variant-B" |}), w1, []) /\
    Legacy.isParticipating (legacy_experiment Legacy.no_options []) w1
    = (inr true, w1, []).
Proof.
  apply (legacy_assignment_reads_back (legacy_experiment Legacy.no_options [])
           (test_world 0.347 uid_store) uid_store "variant-B").
  reflexivity.
Defined.

(** ** Completion in the earlier build *)

(** X22. [complete] of [part_001] has no guard against a second
    completion: whatever [hasConverted] was, on an available store whose
    assignment is read it sets [hasConverted], calls the [complete]
    handlers with that assignment and then removes the assignment, so
    that [getVariant] returns [null] afterwards (the callbacks being
    observers). *)
Theorem legacy_complete_clears_assignment (this : Legacy.Exp) (w : World)
    (m : gmap string string) (a : option Legacy.Stored) :
  localStorage w = Some m ->
  Legacy.getVariant this w = (inr a, w, []) ->
  legacy_observers (default [] (Legacy.handlers this !! "complete")) ->
  exists w1,
    Legacy.complete this w
    = (Legacy.converted this,
       (inr tt, w1,
        legacy_handler_calls (Legacy.Spread [a])
          (default [] (Legacy.handlers this !! "complete")))) /\
    Legacy.hasConverted (Legacy.converted this) = true /\
    localStorage w1 = Some (delete (Legacy.storagePrefix this) m) /\
    Legacy.getVariant (Legacy.converted this) w1 = (inr None, w1, []).
Proof.
  intros Hm Hg Ho. unfold Legacy.complete.
  change (Legacy.getVariant (Legacy.converted this))
    with (Legacy.getVariant this).
  unfold Legacy.bind at 1. rewrite Hg. unfold Legacy.bind at 1.
  unfold Legacy.trigger.
  rewrite (legacy_trigger_observers Legacy.Spread (Legacy.converted this)
             "complete" [a] w ltac:(discriminate) Ho).
  rewrite (legacy_clearVariant_available (Legacy.converted this) w m Hm).
  eexists. split; [cbn [app]; now rewrite app_nil_r|].
  split; [reflexivity|]. split; [reflexivity|].
  eapply legacy_getVariant_absent; [reflexivity|]. apply lookup_delete_eq.
Qed.

Lemma legacy_complete_clears_assignment_witness :
  exists w1,
    Legacy.complete
      (Legacy.converted (legacy_experiment Legacy.no_options [legacy_variant_A]))
      (test_world 0.347 legacy_assigned_store)
    = (Legacy.converted
         (Legacy.converted
            (legacy_experiment Legacy.no_options [legacy_variant_A])),
       (inr tt, w1,
        legacy_handler_calls
          (Legacy.Spread
             [Some {| Legacy.experimentId := "test";
                      Legacy.variantId := "variant-A" |}])
          (default []
             (Legacy.handlers
                (Legacy.converted
                   (legacy_experiment Legacy.no_options [legacy_variant_A]))
              !! "complete")))) /\
    Legacy.hasConverted
      (Legacy.converted
         (Legacy.converted
            (legacy_experiment Legacy.no_options [legacy_variant_A]))) = true /\
    localStorage w1 = Some (delete "experiment_test" legacy_assigned_store) /\
    Legacy.getVariant
      (Legacy.converted
         (Legacy.converted
            (legacy_experiment Legacy.no_options [legacy_variant_A]))) w1
    = (inr None, w1, []).
Proof.
  apply (legacy_complete_clears_assignment
           (Legacy.converted
              (legacy_experiment Legacy.no_options [legacy_variant_A]))
           (test_world 0.347 legacy_assigned_store) legacy_assigned_store
           (Some {| Legacy.experimentId := "test";
                    Legacy.variantId := "variant-A" |}));
    [reflexivity | reflexivity |].
  repeat constructor. eexists. split; [reflexivity|]. intros a w. reflexivity.
Defined.

(** X23. [complete] of [part_002] removes the assignment before it reads
    it: on an available store the [complete] handlers are always called
    with [null], whatever assignment was persisted, and the assignment is
    gone afterwards (the callbacks being observers). *)
Theorem legacy_complete_002_passes_null (this : Legacy.Exp) (w : World)
    (m : gmap string string) :
  localStorage w = Some m ->
  legacy_observers (default [] (Legacy.handlers this !! "complete")) ->
  exists w1,
    Legacy.complete_002 this w
    = (Legacy.converted this,
       (inr tt, w1,
        legacy_handler_calls (Legacy.Packed [None])
          (default [] (Legacy.handlers this !! "complete")))) /\
    localStorage w1 = Some (delete (Legacy.storagePrefix this) m).
Proof.
  intros Hm Ho. unfold Legacy.complete_002.
  unfold Legacy.bind at 1.
  rewrite (legacy_clearVariant_available (Legacy.converted this) w m Hm).
  unfold Legacy.bind at 1.
  erewrite legacy_getVariant_absent; [|reflexivity|apply lookup_delete_eq].
  unfold Legacy.trigger_002.
  rewrite (legacy_trigger_observers Legacy.Packed (Legacy.converted this)
             "complete" [None] _ ltac:(discriminate) Ho).
  eexists. split; reflexivity.
Qed.

Lemma legacy_complete_002_passes_null_witness :
  exists w1,
    Legacy.complete_002 (legacy_experiment Legacy.no_options [legacy_variant_A])
      (test_world 0.347 legacy_assigned_store)
    = (Legacy.converted (legacy_experiment Legacy.no_options [legacy_variant_A]),
       (inr tt, w1,
        legacy_handler_calls (Legacy.Packed [None])
          (default []
             (Legacy.handlers
                (legacy_experiment Legacy.no_options [legacy_variant_A])
              !! "complete")))) /\
    localStorage w1 = Some (delete "experiment_test" legacy_assigned_store).
Proof.
  apply (legacy_complete_002_passes_null
           (legacy_experiment Legacy.no_options [legacy_variant_A])
           (test_world 0.347 legacy_assigned_store) legacy_assigned_store);
    [reflexivity|].
  repeat constructor. eexists. split; [reflexivity|]. intros a w. reflexivity.
Defined.

(** ** The constructor of the earlier build *)

Lemma legacy_allocateId_outcome (w w1 : World) (m : gmap string string)
    (r : Legacy.exn + option Z) (t : list Legacy.call) :
  localStorage w = Some m ->
  Legacy.allocateId w = (r, w1, t) ->
  t = [] /\
  now w1 = now w /\
  exists n m1,
    r = inr (Some n) /\
    localStorage w1 = Some m1 /\
    (forall k, k <> "conical_uid" -> m1 !! k = m !! k).
Proof.
  intros Hm. unfold Legacy.allocateId, Legacy.hasId.
  unfold Legacy.bind at 1. unfold Legacy.bind at 1.
  rewrite (legacy_getId_available w m Hm). unfold Legacy.ret. cbv beta iota.
  destruct (parseInt (ToString (m !! "conical_uid"))) as [n|] eqn:Hp;
    cbn [truthy_number].
  - destruct (negb (n =? 0)%Z).
    + rewrite (legacy_getId_available w m Hm), Hp. intros [= <- <- <-].
      repeat split. exists n, m. now repeat split.
    + unfold Legacy.bind, Legacy.Math_random, Legacy.setId, Legacy.setItem.
      cbn [localStorage]. rewrite Hm. cbv beta iota. unfold Legacy.ret.
      intros [= <- <- <-]. repeat split.
      eexists _, _. split; [reflexivity|]. split; [reflexivity|].
      intros k Hk. apply lookup_insert_ne. unfold Legacy.uidKey. congruence.
  - unfold Legacy.bind, Legacy.Math_random, Legacy.setId, Legacy.setItem.
    cbn [localStorage]. rewrite Hm. cbv beta iota. unfold Legacy.ret.
    intros [= <- <- <-]. repeat split.
    eexists _, _. split; [reflexivity|]. split; [reflexivity|].
    intros k Hk. apply lookup_insert_ne. unfold Legacy.uidKey. congruence.
Qed.

(** X24. Called without [new] and without a description string, the
    constructor function of the earlier build shifts its arguments twice
    and loses the options: the experiment is the one built by
    [new Experiment(id)], with no sample size and no expiry, whatever
    options were passed as second or third argument.  With a description
    string the options are kept, with or without [new]. *)
Theorem legacy_factory_drops_options (i : value) (opts : option Legacy.Options)
    (w : World) :
  (forall o,
      Legacy.Experiment false i (Legacy.DOptions o) opts w
      = Legacy.Experiment true i Legacy.DMissing None w) /\
  Legacy.Experiment false i Legacy.DMissing opts w
  = Legacy.Experiment true i Legacy.DMissing None w /\
  (forall s,
      Legacy.Experiment false i (Legacy.DString s) opts w
      = Legacy.Experiment true i (Legacy.DString s) opts w) /\
  (forall o this w1 t,
      Legacy.Experiment false i (Legacy.DOptions o) opts w = (inr this, w1, t) ->
      Legacy.options this = Legacy.no_options).
Proof.
  assert (H : forall o,
             Legacy.Experiment false i (Legacy.DOptions o) opts w
             = Legacy.Experiment true i Legacy.DMissing None w)
    by (intros o; destruct i; reflexivity).
  split; [exact H|]. split; [destruct i; reflexivity|].
  split; [intros s; destruct i; reflexivity|].
  intros o this w1 t. rewrite H. unfold Legacy.Experiment.
  destruct i as [| | | |s| |]; try discriminate.
  destruct (invalid_name (VString s)); [discriminate|].
  cbn [Legacy.shift default Legacy.options Legacy.variant Legacy.no_options].
  unfold Legacy.bind.
  destruct (Legacy.allocateId w) as [[[e|n] w2] t2]; [discriminate|].
  unfold Legacy.ret. now intros [= <- _ _].
Qed.

Lemma legacy_factory_drops_options_witness :
  let o := {| Legacy.sampleSize := Some 0.2%Q; Legacy.expiry := Some 1%Z;
              Legacy.variant := None |} in
  let this :=
    {| Legacy.id := "test"; Legacy.options := Legacy.no_options;
       Legacy.description := None; Legacy.storagePrefix := "experiment_test";
       Legacy.hasConverted := false; Legacy.variants := [];
       Legacy.handlers := ∅ |} in
  Legacy.Experiment false (VString "test") (Legacy.DOptions o) None
    (test_world 0.347 uid_store)
  = (inr this, test_world 0.347 uid_store, []) /\
  Legacy.options this = Legacy.no_options.
Proof.
  cbv zeta.
  assert (H : Legacy.Experiment false (VString "test")
                (Legacy.DOptions
                   {| Legacy.sampleSize := Some 0.2%Q;
                      Legacy.expiry := Some 1%Z; Legacy.variant := None |})
                None (test_world 0.347 uid_store)
              = (inr {| Legacy.id := "test"; Legacy.options := Legacy.no_options;
                        Legacy.description := None;
                        Legacy.storagePrefix := "experiment_test";
                        Legacy.hasConverted := false; Legacy.variants := [];
                        Legacy.handlers := ∅ |},
                 test_world 0.347 uid_store, []))
    by (vm_compute; reflexivity).
  split; [exact H|].
  exact (proj2 (proj2 (proj2 (legacy_factory_drops_options (VString "test")
                                None (test_world 0.347 uid_store))))
           _ _ _ _ H).
Defined.

(** X25. A construction of the earlier build that succeeds on an
    available store yields an experiment without variants and writes no
    key but [conical_uid]: since no variant is registered yet,
    [options.variant] never places the user, and no assignment is
    written. *)
Theorem legacy_constructor_writes_no_assignment (with_new : bool) (i : value)
    (d : Legacy.DescriptionArg) (opts : option Legacy.Options)
    (w w1 : World) (m : gmap string string) (this : Legacy.Exp)
    (t : list Legacy.call) :
  localStorage w = Some m ->
  Legacy.Experiment with_new i d opts w = (inr this, w1, t) ->
  t = [] /\
  i = VString (Legacy.id this) /\
  Legacy.storagePrefix this = "experiment_" +:+ Legacy.id this /\
  Legacy.variants this = [] /\
  Legacy.hasConverted this = false /\
  exists m1,
    localStorage w1 = Some m1 /\
    (forall k, k <> "conical_uid" -> m1 !! k = m !! k).
Proof.
  intros Hm. unfold Legacy.Experiment.
  destruct i as [| | | |s| |]; try discriminate.
  destruct (invalid_name (VString s)); [discriminate|].
  destruct (Legacy.shift d opts) as [d1 o1].
  destruct (if with_new then _ else _) as [d2 o2].
  cbv zeta. unfold Legacy.bind at 1.
  destruct (Legacy.allocateId w) as [[r w2] t2] eqn:Ha.
  destruct (legacy_allocateId_outcome w w2 m r t2 Hm Ha)
    as (-> & _ & n & m1 & -> & Hm1 & Hk).
  cbv iota. cbn [Legacy.options Legacy.variant].
  assert (Hh : forall v,
             Legacy.hasVariant
               {| Legacy.id := s; Legacy.options := default Legacy.no_options o2;
                  Legacy.description := d2;
                  Legacy.storagePrefix := "experiment_" +:+ s;
                  Legacy.hasConverted := false; Legacy.variants := [];
                  Legacy.handlers := ∅ |} v = false)
    by reflexivity.
  unfold Legacy.bind.
  destruct (Legacy.variant (default Legacy.no_options o2)) as [v|];
    [rewrite Hh|]; unfold Legacy.ret; intros [= <- <- <-];
    repeat split; exists m1; split; assumption.
Qed.

Lemma legacy_constructor_writes_no_assignment_witness :
  exists this w1,
    Legacy.Experiment true (VString "test")
      (Legacy.DOptions
         {| Legacy.sampleSize := None; Legacy.expiry := None;
            Legacy.variant := Some "variant-A" |})
      None (test_world 0.34702089498750865 ∅) = (inr this, w1, []) /\
    VString "test" = VString (Legacy.id this) /\
    Legacy.storagePrefix this = "experiment_" +:+ Legacy.id this /\
    Legacy.variants this = [] /\
    Legacy.hasConverted this = false /\
    exists m1,
      localStorage w1 = Some m1 /\
      (forall k, k <> "conical_uid" -> m1 !! k = (∅ : gmap string string) !! k).
Proof.
  eexists _, _. split; [vm_compute; reflexivity|].
  eapply (legacy_constructor_writes_no_assignment true (VString "test")
            (Legacy.DOptions
               {| Legacy.sampleSize := None; Legacy.expiry := None;
                  Legacy.variant := Some "variant-A" |})
            None (test_world 0.34702089498750865 ∅));
    [reflexivity | vm_compute; reflexivity].
Defined.

(** ** Segmentation and the run in the earlier build *)

Lemma legacy_getVariant_pure (this : Legacy.Exp) (w : World) :
  exists r, Legacy.getVariant this w = (r, w, []).
Proof.
  destruct (localStorage w) as [m|] eqn:Hm.
  - unfold Legacy.getVariant. run_legacy_store Hm.
    destruct (truthy_string (m !! Legacy.storagePrefix this)).
    + destruct (Legacy.JSON_parse _); eexists; reflexivity.
    + eexists; reflexivity.
  - unfold Legacy.getVariant. run_legacy_store Hm. eexists; reflexivity.
Qed.

Lemma legacy_canParticipate_pure (this : Legacy.Exp) (w : World)
    (m : gmap string string) :
  localStorage w = Some m ->
  exists can, Legacy.canParticipate this w = (inr can, w, []).
Proof.
  intros Hm. unfold Legacy.canParticipate, Legacy.bind.
  rewrite (legacy_getId_available w m Hm). eexists; reflexivity.
Qed.

(** X26. A [segment] of the earlier build that fails leaves the store and
    the clock exactly as they were and invokes no callback: unlike the
    current build it does not clear a stale assignment when the
    experiment has expired. *)
Theorem legacy_failed_segment_keeps_store (this : Legacy.Exp) (w w1 : World)
    (e : Legacy.exn) (t : list Legacy.call) :
  Legacy.segment this w = (inl e, w1, t) ->
  localStorage w1 = localStorage w /\ now w1 = now w /\ t = [] /\
  (Legacy.hasExpired this w = (inr true, w, []) ->
   e = Legacy.Error "This experiment has expired." /\ w1 = w).
Proof.
  unfold Legacy.segment. unfold Legacy.bind at 1. unfold Legacy.hasExpired.
  destruct (match Legacy.expiry (Legacy.options this) with
            | Some t0 => (now w >? t0)%Z
            | None => false
            end) eqn:Ex.
  { unfold Legacy.throw. intros [= <- <- <-]. now repeat split. }
  destruct (length (Legacy.variants this) <=? 0)%nat.
  { unfold Legacy.throw. intros [= <- <- <-]. repeat split; congruence. }
  unfold Legacy.bind at 1. unfold Legacy.isParticipating, Legacy.bind at 1.
  destruct (legacy_getVariant_pure this w) as [[e1|[o|]] Hg]; rewrite Hg.
  { intros [= <- <- <-]. repeat split; congruence. }
  { unfold Legacy.ret. discriminate. }
  destruct (localStorage w) as [m|] eqn:Hm.
  2:{ exfalso. revert Hg. unfold Legacy.getVariant. run_legacy_store Hm.
      discriminate. }
  unfold Legacy.ret. cbv beta iota. unfold Legacy.bind at 1.
  destruct (legacy_canParticipate_pure this w m Hm) as [can Hc]. rewrite Hc.
  destruct can.
  - unfold Legacy.participating, Legacy.bind at 1, Legacy.Math_random.
    destruct (Legacy.allocate_from _ _ _) as [e2|chosen].
    + unfold Legacy.throw. intros [= <- <- <-]. cbn [localStorage now].
      repeat split; congruence.
    + erewrite legacy_setVariant_available by (cbn [localStorage]; exact Hm).
      discriminate.
  - unfold Legacy.notParticipating.
    rewrite (legacy_setVariant_available this w m Hm). discriminate.
Qed.

Lemma legacy_failed_segment_keeps_store_witness :
  let this :=
    legacy_experiment
      {| Legacy.sampleSize := None; Legacy.expiry := Some 1%Z;
         Legacy.variant := None |} [legacy_variant_A] in
  let w := test_world 0.347 legacy_assigned_store in
  Legacy.segment this w
  = (inl (Legacy.Error "This experiment has expired."), w, []) /\
  localStorage w = localStorage w /\ now w = now w /\ @nil Legacy.call = [] /\
  (Legacy.hasExpired this w = (inr true, w, []) ->
   Legacy.Error "This experiment has expired."
   = Legacy.Error "This experiment has expired." /\ w = w).
Proof.
  cbv zeta.
  assert (H : Legacy.segment
                (legacy_experiment
                   {| Legacy.sampleSize := None; Legacy.expiry := Some 1%Z;
                      Legacy.variant := None |} [legacy_variant_A])
                (test_world 0.347 legacy_assigned_store)
              = (inl (Legacy.Error "This experiment has expired."),
                 test_world 0.347 legacy_assigned_store, []))
    by reflexivity.
  split; [exact H|].
  exact (legacy_failed_segment_keeps_store _ _ _ _ _ H).
Defined.

Lemma legacy_start_as_matching (args : value) (this : Legacy.Exp) (w : World)
    (o : Legacy.Stored) :
  Legacy.getVariant this w = (inr (Some o), w, []) ->
  Legacy.start args this w
  = Legacy.for_each (legacy_matching (Legacy.variantId o) (Legacy.variants this))
      (fun v =>
         Legacy.bind (Legacy.invoke Legacy.RunCall (Legacy.run v) args)
           (fun _ => Legacy.trigger this (VString "start") [Some o])) w.
Proof.
  intros Hg. unfold Legacy.start, Legacy.bind at 1. rewrite Hg.
  unfold legacy_matching. rewrite <- legacy_for_each_filter.
  match goal with
  | |- (let (_, _) := ?x in _) = ?y =>
      replace x with y; [now destruct y as [[r w2] t2]|]
  end.
  apply legacy_for_each_ext. intros v w1. cbn [Legacy.get_variantId].
  now rewrite legacy_bind_ret_l.
Qed.

(** X27. In the earlier build [start] calls a matching variant's [run]
    first, with [args] as its [this], and the [start] handlers after it,
    for every matching variant in registration order (the callbacks being
    observers); with no assignment persisted and a variant registered it
    throws a [TypeError] on reading [variantId] of [null]. *)
Theorem legacy_start_runs_then_notifies (args : value) (this : Legacy.Exp)
    (w : World) :
  (forall o,
      Legacy.getVariant this w = (inr (Some o), w, []) ->
      legacy_observers (default [] (Legacy.handlers this !! "start")) ->
      Forall (fun v => exists f, Legacy.run v = Some f /\ legacy_observer f)
        (legacy_matching (Legacy.variantId o) (Legacy.variants this)) ->
      Legacy.start args this w = (inr tt, w, legacy_start_trace this o args)) /\
  (Legacy.getVariant this w = (inr None, w, []) ->
   Legacy.variants this <> [] ->
   Legacy.start args this w
   = (inl (Legacy.TypeError "cannot read property variantId of null"), w, [])).
Proof.
  split.
  - intros o Hg Hh Hv. rewrite (legacy_start_as_matching args this w o Hg).
    unfold legacy_start_trace.
    induction Hv as [|v vs (f & Hf & Hp) _ IH]; [reflexivity|].
    cbn [Legacy.for_each flat_map]. unfold Legacy.bind at 1.
    unfold Legacy.bind at 1. rewrite Hf. cbn [Legacy.invoke]. rewrite Hp.
    change (Legacy.trigger this (VString "start") [Some o] w)
      with (Legacy.trigger_with Legacy.Spread this (VString "start")
              [Some o] w).
    rewrite (legacy_trigger_observers Legacy.Spread this "start" [Some o] w
               ltac:(discriminate) Hh).
    rewrite IH. reflexivity.
  - intros Hg Hv. unfold Legacy.start, Legacy.bind at 1. rewrite Hg.
    destruct (Legacy.variants this) as [|v vs]; [congruence|]. reflexivity.
Qed.

Lemma legacy_start_runs_then_notifies_witness :
  let this :=
    legacy_experiment Legacy.no_options [legacy_variant_A; legacy_variant_B] in
  Legacy.start (VNumber 1) this (test_world 0.347 legacy_assigned_store)
  = (inr tt, test_world 0.347 legacy_assigned_store,
     [Legacy.RunCall "A" (VNumber 1);
      Legacy.HandlerCall "on start"
        (Legacy.Spread
           [Some {| Legacy.experimentId := "test";
                    Legacy.variantId := "variant-A" |}])]) /\
  Legacy.start (VNumber 1) this (test_world 0.347 uid_store)
  = (inl (Legacy.TypeError "cannot read property variantId of null"),
     test_world 0.347 uid_store, []).
Proof.
  cbv zeta. split.
  - apply (proj1 (legacy_start_runs_then_notifies (VNumber 1)
                    (legacy_experiment Legacy.no_options
                       [legacy_variant_A; legacy_variant_B])
                    (test_world 0.347 legacy_assigned_store))
             {| Legacy.experimentId := "test"; Legacy.variantId := "variant-A" |});
      [reflexivity | |];
      repeat constructor; eexists; (split; [reflexivity|intros a w; reflexivity]).
  - apply (proj2 (legacy_start_runs_then_notifies (VNumber 1)
                    (legacy_experiment Legacy.no_options
                       [legacy_variant_A; legacy_variant_B])
                    (test_world 0.347 uid_store)));
      [reflexivity | discriminate].
Defined.
